(** * Tangram mapping helpers ([mapping/mapping_utils.py])

    A shallow embedding of [pp_adatas] and [map_cells_to_space] together with
    the parts of numpy, scipy, pandas and AnnData they call, and the
    properties of the design document checked against that embedding.

    Conventions of the model.
    - Array elements live in a carrier [F] with the arithmetic of a [Float]
      instance.  The instance given is float32: [spec_float] at binary32,
      the Standard Library's executable IEEE 754 specification, with
      rounding to nearest at every operation.
    - [adata[:, index]] is a view (anndata 0.7): it refers to the AnnData
      viewed and to the columns it keeps, reading its [X] gives the columns
      of the [X] viewed in the same storage, and assigning to its [X] writes
      into the [X] viewed.
    - Python objects that may be shared (the expression matrices) live in a
      heap indexed by locations; an [AnnData] refers to its [X] by location.
    - Exceptions are the Python classes the code raises.  The design document
      names errors abstractly; the code raises [NotImplementedError] where the
      document says UnsupportedMatrixType or UnsupportedModeError, and
      [AssertionError] where it says GeneAlignmentError. *)

From Stdlib Require Import ZArith QArith Lia SpecFloat.
From stdpp Require Import base gmap strings pretty list sorting.

Set Default Proof Using "Type".

(** ** Element arithmetic *)

(** The operations numpy applies to array elements.  [f_cast32] is the
    element conversion of [astype('float32')]; the arithmetic is the one of
    float32 arrays, the only dtype the scoring step works on. *)
Class Float (F : Type) := {
  f_zero : F;
  f_nan : F;
  f_add : F → F → F;
  f_mul : F → F → F;
  f_div : F → F → F;
  f_sqrt : F → F;
  f_isnan : F → bool;
  f_leb : F → F → bool;
  f_cast32 : F → F;
}.

(** The comparison orders any two values that are not NaN. *)
Class FloatOrder (F : Type) `{Float F} : Prop :=
  f_leb_total : ∀ x y : F,
    f_isnan x = false → f_isnan y = false → f_leb x y = true ∨ f_leb y x = true.

(** ** Exceptions and results *)

Inductive exn :=
  | NotImplementedError
  | AssertionError
  | AttributeError
  | IndexError
  | InvalidIndexError
  | KeyError
  | ValueError
  | RuntimeError.

Inductive result (A : Type) :=
  | Ok (a : A)
  | Raise (e : exn).
Arguments Ok {A} a.
Arguments Raise {A} e.

#[global] Instance result_ret : MRet result := λ A a, Ok a.
#[global] Instance result_bind : MBind result := λ A B f r,
  match r with
  | Ok a => f a
  | Raise e => Raise e
  end.

#[global] Instance result_fmap : FMap result := λ A B f r,
  match r with
  | Ok a => Ok (f a)
  | Raise e => Raise e
  end.

(** ** IEEE 754 binary32 *)

(** Conversion to float32: a finite value is rounded to 24 bits of mantissa,
    to nearest and ties to even, and overflows to an infinity. *)
Definition b32_cast (x : spec_float) : spec_float :=
  match x with
  | S754_finite s m e => binary_round 24 128 s m e
  | _ => x
  end.

Definition b32_isnan (x : spec_float) : bool :=
  match x with S754_nan => true | _ => false end.

#[global] Instance binary32 : Float spec_float := {|
  f_zero := S754_zero false;
  f_nan := S754_nan;
  f_add := SFadd 24 128;
  f_mul := SFmul 24 128;
  f_div := SFdiv 24 128;
  f_sqrt := SFsqrt 24 128;
  f_isnan := b32_isnan;
  f_leb := SFleb;
  f_cast32 := b32_cast;
|}.

(** The float32 and float64 values used in the examples. *)
Definition b32_0 : spec_float := S754_zero false.
Definition b32_one : spec_float := S754_finite false 8388608 (-23).
Definition b32_two : spec_float := S754_finite false 8388608 (-22).
Definition b32_half : spec_float := S754_finite false 8388608 (-24).
(** 0.1 as a float64: 0x1999999999999A * 2^-56. *)
Definition b64_tenth : spec_float := S754_finite false 7205759403792794 (-56).
(** 1.0 as a float64. *)
Definition b64_one : spec_float := S754_finite false 4503599627370496 (-52).

(** A binary32 zero of either sign, and a zero or NaN. *)
Definition b32_zero (x : spec_float) : Prop :=
  match x with S754_zero _ => True | _ => False end.

Definition zero_or_nan (x : spec_float) : Prop :=
  match x with S754_zero _ | S754_nan => True | _ => False end.

(** ** Data model *)

Inductive dtype := float32 | float64.

Inductive level := INFO | ERROR.

Definition loc := nat.

Section Model.
Context {F : Type} {FF : Float F}.

(** A two-dimensional array, row by row.  The column count is kept beside
    the rows so that a matrix without rows still has a shape, as in numpy. *)
Record matrix := Matrix { ncols : nat; rows : list (list F) }.

Definition nrows (a : matrix) : nat := length (rows a).
Definition shape (a : matrix) : nat * nat := (nrows a, ncols a).

(** What [adata.X] can be bound to.  A scipy sparse matrix is represented by
    its storage format and the matrix it denotes; [other] is any object of
    another type (an h5py dataset of a backed AnnData, a COO matrix, ...),
    identified by the name of its type. *)
Inductive pyobj :=
  | ndarray (dt : dtype) (a : matrix)
  | csr_matrix (dt : dtype) (a : matrix)
  | csc_matrix (dt : dtype) (a : matrix)
  | other (tyname : string).

(** A one-column pandas DataFrame (column [score]) as its rows:
    index label and value. *)
Local Abbreviation dataframe := (list (string * F)).

(** An AnnData.  A subset [adata[:, index]] is a view: it holds no matrix of
    its own, [adata_ref] names the AnnData it is a view of, by the location
    of the [X] of that AnnData, and the columns of that [X] it selects.  A
    view computes its [X] from the AnnData viewed whenever it is read; the
    model keeps what it reads as at a location of its own, [X], and an
    assignment to the [X] of a view ([set_X]) keeps the two in step.  An
    AnnData that owns its [X] has no [adata_ref]. *)
Record AnnData := mkAnnData {
  X : loc;
  obs_index : list string;
  var_index : list string;
  uns : gmap string dataframe;
  adata_ref : option (loc * list nat);
}.

Definition n_obs (adata : AnnData) : nat := length (obs_index adata).
Definition n_vars (adata : AnnData) : nat := length (var_index adata).

(** ** Interpreter state: the heap of shared objects and the log *)

Record state := State {
  heap : gmap loc pyobj;
  log : list (level * string);
}.

Definition M (A : Type) : Type := state → result A * state.

#[global] Instance M_ret : MRet M := λ A a st, (Ok a, st).
#[global] Instance M_bind : MBind M := λ A B f m st,
  match m st with
  | (Ok a, st') => f a st'
  | (Raise e, st') => (Raise e, st')
  end.

Definition raise {A} (e : exn) : M A := λ st, (Raise e, st).

Definition lift {A} (r : result A) : M A := λ st, (r, st).

(** [assert cond] *)
Definition assert_ (cond : bool) : M unit :=
  if cond then mret () else raise AssertionError.

(** Reading through a reference.  A location that holds nothing reads as an
    object of type NoneType. *)
Definition deref (l : loc) : M pyobj := λ st,
  (Ok (default (other "NoneType") (heap st !! l)), st).

(** A new object gets a location not in use. *)
Definition alloc (o : pyobj) : M loc := λ st,
  let l := fresh (dom (heap st)) in
  (Ok l, {| heap := <[l := o]> (heap st); log := log st |}).

Definition logging_info (msg : string) : M unit := λ st,
  (Ok (), {| heap := heap st; log := log st ++ [(INFO, msg)] |}).

Definition logging_error (msg : string) : M unit := λ st,
  (Ok (), {| heap := heap st; log := log st ++ [(ERROR, msg)] |}).

(** ** pandas Index and AnnData subsetting *)

(** [index.isin(values)] *)
Definition isin (index values : list string) : list bool :=
  map (λ g, bool_decide (g ∈ values)) index.

(** Selection by a boolean mask, [a[mask]]. *)
Fixpoint mask_select {A} (mask : list bool) (l : list A) : list A :=
  match mask, l with
  | b :: mask, x :: l =>
      if b then x :: mask_select mask l else mask_select mask l
  | _, _ => []
  end.

Fixpoint index_of (x : string) (l : list string) : option nat :=
  match l with
  | [] => None
  | y :: l => if decide (y = x) then Some 0 else S <$> index_of x l
  end.

(** [index.get_indexer(target)] followed by AnnData's check that every label
    was found.  pandas refuses to reindex on an index with repeated labels. *)
Definition get_indexer (index target : list string) : result (list nat) :=
  if bool_decide (NoDup index) then
    mapM (λ g, match index_of g index with
               | Some i => Ok i
               | None => Raise KeyError
               end) target
  else Raise InvalidIndexError.

Definition select_cols_mask (mask : list bool) (a : matrix) : matrix :=
  {| ncols := length (mask_select mask (seq 0 (ncols a)));
     rows := map (mask_select mask) (rows a) |}.

Definition take_cols (idx : list nat) (a : matrix) : matrix :=
  {| ncols := length idx;
     rows := map (λ r, map (λ j, nth j r f_zero) idx) (rows a) |}.

(** The columns that a subset of [adata] at the columns [idx] selects in the
    AnnData that owns the matrix: the subset of a view is a view of the
    AnnData viewed. *)
Definition view_ref (adata : AnnData) (idx : list nat) : loc * list nat :=
  match adata_ref adata with
  | None => (X adata, idx)
  | Some (p, prev) => (p, map (λ j, nth j prev 0) idx)
  end.

(** Column subsetting keeps the storage type of [X]. *)
Definition obj_map_matrix (f : matrix → matrix) (o : pyobj) : pyobj :=
  match o with
  | ndarray dt a => ndarray dt (f a)
  | csr_matrix dt a => csr_matrix dt (f a)
  | csc_matrix dt a => csc_matrix dt (f a)
  | other ty => other ty
  end.

(** [adata[:, mask]] for a boolean mask: a view of [adata] at the columns
    where the mask is true. *)
Definition getitem_vars_mask (adata : AnnData) (mask : list bool) : M AnnData :=
  if bool_decide (length mask = n_vars adata) then
    o ← deref (X adata);
    l ← alloc (obj_map_matrix (select_cols_mask mask) o);
    mret {| X := l;
            obs_index := obs_index adata;
            var_index := mask_select mask (var_index adata);
            uns := uns adata;
            adata_ref :=
              Some (view_ref adata (mask_select mask (seq 0 (n_vars adata)))) |}
  else raise IndexError.

(** [adata[:, names]] for an array of variable names: a view of [adata] at
    the columns of these names, in their order. *)
Definition getitem_vars_names (adata : AnnData) (names : list string) : M AnnData :=
  idx ← lift (get_indexer (var_index adata) names);
  o ← deref (X adata);
  l ← alloc (obj_map_matrix (take_cols idx) o);
  mret {| X := l;
          obs_index := obs_index adata;
          var_index := map (λ j, nth j (var_index adata) "") idx;
          uns := uns adata;
          adata_ref := Some (view_ref adata idx) |}.

(** ** Python's [~] and truth value *)

(** [isinstance(o, np.ndarray)] *)
Definition isinstance_ndarray (o : pyobj) : bool :=
  match o with ndarray _ _ => true | _ => false end.

(** [~b] on a bool is the bitwise inversion of the integer: [~True = -2],
    [~False = -1]. *)
Definition invert (b : bool) : Z := Z.lnot (if b then 1 else 0).

(** The truth value of an integer in a condition. *)
Definition truth (z : Z) : bool := negb (z =? 0)%Z.

(** The element type of an array or sparse matrix. *)
Definition obj_dtype (o : pyobj) : dtype :=
  match o with
  | ndarray dt _ | csr_matrix dt _ | csc_matrix dt _ => dt
  | other _ => float64
  end.

(** [o.toarray()]: defined by the sparse matrices, which return the dense
    matrix they denote; a numpy array has no such attribute. *)
Definition toarray (o : pyobj) : result matrix :=
  match o with
  | csr_matrix _ a | csc_matrix _ a => Ok a
  | ndarray _ _ | other _ => Raise AttributeError
  end.

(** ** Assignment to [adata.X] *)

(** [m[:, idx] = value] on a matrix: column [k] of [value] is written at
    column [idx[k]] of [m], row by row.  The indices of a view are columns
    of the matrix viewed; a position outside a row is not written. *)
Definition put_row (idx : list nat) (r v : list F) : list F :=
  foldl (λ r p, <[p.1 := p.2]> r) r (zip idx v).

Definition put_cols (idx : list nat) (value m : matrix) : matrix :=
  {| ncols := ncols m;
     rows := zip_with (put_row idx) (rows m) (rows value) ++
             drop (length (rows value)) (rows m) |}.

(** [adata.X = value], for a value of element type [dt].  On an AnnData
    that owns its [X], the attribute is bound to the new array.  On a view,
    AnnData writes the values into the [X] of the AnnData viewed, at the
    columns of the view and in the storage of that [X] (a dense value
    written into a sparse matrix is stored sparse); the view stays a view,
    and its [X] reads as the columns written, in that storage.  AnnData
    first checks that [value] has the shape of [adata]; in [pp_adatas] the
    value is what [adata.X] read as. *)
Definition set_X (adata : AnnData) (dt : dtype) (value : matrix) : M AnnData :=
  match adata_ref adata with
  | None =>
      l ← alloc (ndarray dt value);
      mret {| X := l;
              obs_index := obs_index adata;
              var_index := var_index adata;
              uns := uns adata;
              adata_ref := None |}
  | Some (p, idx) => λ st,
      (Ok adata,
       {| heap := alter (obj_map_matrix (λ _, value)) (X adata)
                    (alter (obj_map_matrix (put_cols idx value)) p (heap st));
          log := log st |})
  end.

(** ** [pp_adatas] *)

(** One round of the loop over [[adata_1, adata_2]] (lines 55-56). *)
Definition cast_to_numpy (adata : AnnData) : M AnnData :=
  o ← deref (X adata);
  if truth (invert (isinstance_ndarray o)) then
    o ← deref (X adata);
    a ← lift (toarray o);
    set_X adata (obj_dtype o) a
  else mret adata.

(** Lines 29-39: the candidate genes, refined to those both datasets have. *)
Definition marker_genes (adata_1 adata_2 : AnnData)
    (genes : option (list string)) : list string :=
  let genes :=
    match genes with
    | None => var_index adata_1
    | Some genes => genes
    end in
  let mask := isin (var_index adata_1) genes in
  let genes := mask_select mask (var_index adata_1) in
  let mask := isin (var_index adata_2) genes in
  mask_select mask (var_index adata_2).

Definition pp_adatas (adata_1 adata_2 : AnnData) (genes : option (list string))
    : M (AnnData * AnnData) :=
  let genes := marker_genes adata_1 adata_2 genes in
  logging_info (pretty (length genes) +:+ " marker genes shared by AnnDatas.");;
  let mask := isin (var_index adata_1) genes in
  adata_1 ← getitem_vars_mask adata_1 mask;
  let mask := isin (var_index adata_2) genes in
  adata_2 ← getitem_vars_mask adata_2 mask;
  assert_ (bool_decide (n_vars adata_2 = n_vars adata_1));;
  adata_2 ← getitem_vars_names adata_2 (var_index adata_1);
  assert_ (bool_decide (var_index adata_2 = var_index adata_1));;
  adata_1 ← cast_to_numpy adata_1;
  adata_2 ← cast_to_numpy adata_2;
  mret (adata_1, adata_2).

(** ** numpy linear algebra *)

Definition get_col (j : nat) (a : matrix) : list F :=
  map (λ r, nth j r f_zero) (rows a).

(** [a.T] *)
Definition transpose (a : matrix) : matrix :=
  {| ncols := nrows a;
     rows := map (λ j, get_col j a) (seq 0 (ncols a)) |}.

(** The sum of the products of paired elements, accumulated from the left. *)
Definition dot (v1 v2 : list F) : F :=
  fold_left (λ acc p, f_add acc (f_mul p.1 p.2)) (zip v1 v2) f_zero.

(** [v1 @ v2] on vectors; numpy refuses operands of different lengths. *)
Definition vdot (v1 v2 : list F) : result F :=
  if bool_decide (length v1 = length v2) then Ok (dot v1 v2)
  else Raise ValueError.

(** [a @ b] on matrices. *)
Definition matmul (a b : matrix) : result matrix :=
  if bool_decide (ncols a = nrows b) then
    Ok {| ncols := ncols b;
          rows := map (λ r, map (λ j, dot r (get_col j b)) (seq 0 (ncols b)))
                      (rows a) |}
  else Raise ValueError.

(** [np.linalg.norm(v)] *)
Definition norm (v : list F) : F := f_sqrt (dot v v).

(** [np.array(a, dtype='float32')]: always a new array, with every element
    converted. *)
Definition astype_float32 (a : matrix) : matrix :=
  {| ncols := ncols a; rows := map (map f_cast32) (rows a) |}.

Definition np_array_float32 (a : matrix) : M loc :=
  alloc (ndarray float32 (astype_float32 a)).

(** ** pandas DataFrame *)

(** [pd.DataFrame(data, index, columns=['score'])].  An empty [data] is
    treated by pandas as no data at all: the frame has the given index and
    missing values. *)
Definition DataFrame (data : list F) (index : list string) : result dataframe :=
  match data with
  | [] => Ok (map (λ g, (g, f_nan)) index)
  | _ =>
      if bool_decide (length data = length index) then Ok (zip index data)
      else Raise ValueError
  end.

Fixpoint insert_asc (x : string * F) (l : dataframe) : dataframe :=
  match l with
  | [] => [x]
  | y :: l' => if f_leb x.2 y.2 then x :: l else y :: insert_asc x l'
  end.

(** The rows in ascending order of score. *)
Definition argsort (l : dataframe) : dataframe := foldr insert_asc [] l.

(** [df.sort_values(by='score', ascending=False)], as pandas computes it:
    the rows with a missing score are set aside, the others are reversed,
    sorted in ascending order and reversed again, and the rows set aside are
    put last.  pandas sorts with quicksort, which fixes no order among equal
    scores; [argsort] stands for one admissible choice. *)
Definition sort_values (df : dataframe) : dataframe :=
  let non_nans := filter (λ p, f_isnan p.2 = false) df in
  let nans := filter (λ p, f_isnan p.2 = true) df in
  reverse (argsort (reverse non_nans)) ++ nans.

(** ** [map_cells_to_space] *)

Record hyperparameters := {
  lambda_d : Z;
  lambda_g1 : Z;
  lambda_g2 : Z;
  lambda_r : Z;
}.

(** The optimizer of [mapping_optimizer], which is not part of this file, and
    [torch.device], are parameters: the construction of a Mapper and its
    training may fail or return any matrix.  The Mapper reads its inputs and
    does not change the heap. *)
Variable Mapper : Type.
Variable Mapper_init :
  matrix → matrix → list F → string → option AnnData → hyperparameters →
  gmap loc pyobj → result Mapper.
Variable Mapper_train : Mapper → F → Z → result matrix.
Variable torch_device : string → result string.

(** Lines 72-79 and 81-88: the same conversion, applied to the [X] of each
    dataset.  The tests on the type of [X] are the cases of the match: a CSC
    or CSR matrix is expanded by [toarray] and copied as float32, a numpy
    array is copied as float32, and any other object is logged and refused. *)
Definition ingest (o : pyobj) : M loc :=
  match o with
  | csc_matrix _ a | csr_matrix _ a => np_array_float32 a
  | ndarray _ a => np_array_float32 a
  | other X_type =>
      logging_error ("AnnData X has unrecognized type: " +:+ X_type);;
      raise NotImplementedError
  end.

(** [sc.AnnData(X=..., obs=..., var=...)]: AnnData checks the shape of [X]
    against the two annotations. *)
Definition sc_AnnData (Xm : matrix) (obs var : list string) : M AnnData :=
  if bool_decide (shape Xm = (length obs, length var)) then
    l ← alloc (ndarray float32 Xm);
    mret {| X := l; obs_index := obs; var_index := var; uns := ∅;
            adata_ref := None |}
  else raise ValueError.

(** The matrix behind a reference that is known to hold a numpy array. *)
Definition deref_ndarray (l : loc) : M matrix :=
  o ← deref l;
  match o with
  | ndarray _ a => mret a
  | _ => raise AttributeError
  end.

(** One round of the loop of lines 123-125. *)
Definition cos_sim (v1 v2 : list F) : result F :=
  let norm_sq := f_mul (norm v1) (norm v2) in
  d ← vdot v1 v2;
  mret (f_div d norm_sq).

(** Lines 120-128: the cosine similarity of each training gene between the
    observed and the predicted spatial expression, ranked. *)
Definition train_genes_scores (map_X S_a G_a : matrix)
    (var_index_cells : list string) : result dataframe :=
  G_predicted ← matmul (transpose map_X) S_a;
  cos_sims ← mapM (λ p, cos_sim p.1 p.2)
               (zip (rows (transpose G_a)) (rows (transpose G_predicted)));
  let training_genes := var_index_cells in
  df_cs ← DataFrame cos_sims training_genes;
  mret (sort_values df_cs).

Definition map_cells_to_space (adata_cells adata_space : AnnData)
    (mode : string) (adata_map : option AnnData) (device : string)
    (learning_rate : F) (num_epochs : Z) : M AnnData :=
  logging_info "Allocate tensors for mapping.";;
  cells_X ← deref (X adata_cells);
  S_ ← ingest cells_X;
  space_X ← deref (X adata_space);
  G_ ← ingest space_X;
  let d := replicate (n_obs adata_space) f_zero in
  device ← lift (torch_device device);
  hyperparameters ←
    (if bool_decide (mode = "simple") then
       mret {| lambda_d := 0; lambda_g1 := 1; lambda_g2 := 0; lambda_r := 0 |}
     else raise NotImplementedError);
  S_a ← deref_ndarray S_;
  G_a ← deref_ndarray G_;
  mapper ← (λ st, (Mapper_init S_a G_a d device adata_map hyperparameters
                     (heap st), st));
  logging_info "Begin training...";;
  mapping_matrix ← lift (Mapper_train mapper learning_rate num_epochs);
  logging_info "Saving results..";;
  adata_map ← sc_AnnData mapping_matrix
                (obs_index adata_cells) (obs_index adata_space);
  map_X ← deref_ndarray (X adata_map);
  df_cs ← lift (train_genes_scores map_X S_a G_a (var_index adata_cells));
  mret {| X := X adata_map;
          obs_index := obs_index adata_map;
          var_index := var_index adata_map;
          uns := <["train_genes_scores" := df_cs]> (uns adata_map);
          adata_ref := adata_ref adata_map |}.

(** ** Notions used to state the properties *)

(** The matrix a recognized representation of [X] denotes. *)
Definition obj_matrix (o : pyobj) : option matrix :=
  match o with
  | ndarray _ a | csr_matrix _ a | csc_matrix _ a => Some a
  | other _ => None
  end.

(** The object [adata.X] reads as in a state. *)
Definition X_of (st : state) (adata : AnnData) : pyobj :=
  default (other "NoneType") (heap st !! X adata).

(** The [X] of the subset [adata[:, adata.var.index.isin(g)]]. *)
Definition subset_obj (st : state) (adata : AnnData) (g : list string) : pyobj :=
  obj_map_matrix (select_cols_mask (isin (var_index adata) g)) (X_of st adata).

(** The expression column of a gene: the column of [a] at the position of
    the gene in the gene axis [names]. *)
Definition gene_col (names : list string) (a : matrix) (g : string)
    : option (list F) :=
  (λ j, get_col j a) <$> index_of g names.

(** The score of a gene in the words of the design document: the cosine
    similarity, over the spots, between the observed spatial expression of
    the gene and the expression the mapping predicts for it.  These
    definitions do not use the numpy operations above; the sums are taken
    in the order of the index. *)
Fixpoint sum_below (n : nat) (f : nat → F) : F :=
  match n with
  | 0 => f_zero
  | S n' => f_add (sum_below n' f) (f n')
  end.

(** The element of row [i] and column [j]. *)
Definition entry (a : matrix) (i j : nat) : F := nth j (nth i (rows a) []) f_zero.

Definition inner_product (n : nat) (u v : nat → F) : F :=
  sum_below n (λ i, f_mul (u i) (v i)).

Definition euclidean_norm (n : nat) (u : nat → F) : F :=
  f_sqrt (inner_product n u u).

Definition cosine_similarity (n : nat) (u v : nat → F) : F :=
  f_div (inner_product n u v) (f_mul (euclidean_norm n u) (euclidean_norm n v)).

(** The expression of a gene that a mapping of cells to spots predicts at a
    spot: the expression of the gene in every cell, weighted by the mapping
    of the cell to the spot. *)
Definition predicted_expression (mapping S_a : matrix) (spot gene : nat) : F :=
  inner_product (nrows mapping)
    (λ cell, entry mapping cell spot) (λ cell, entry S_a cell gene).

Definition gene_score (mapping S_a G_a : matrix) (gene : nat) : F :=
  cosine_similarity (nrows G_a)
    (λ spot, entry G_a spot gene)
    (λ spot, predicted_expression mapping S_a spot gene).

(** Ascending order of score. *)
Definition score_asc (p q : string * F) : Prop := f_leb p.2 q.2 = true.

(** A ranking in descending order of score, the missing scores last. *)
Definition score_desc (p q : string * F) : Prop :=
  f_isnan q.2 = true ∨
  (f_isnan p.2 = false ∧ f_isnan q.2 = false ∧ f_leb q.2 p.2 = true).

(** The view of [adata] that keeps what its [X] reads as at [l], with the
    gene axis [vars], at the columns [idx] of [adata]. *)
Definition subset_view (adata : AnnData) (l : loc) (vars : list string)
    (idx : list nat) : AnnData :=
  {| X := l;
     obs_index := obs_index adata;
     var_index := vars;
     uns := uns adata;
     adata_ref := Some (view_ref adata idx) |}.

(** The columns that the mask [adata.var.index.isin(g)] selects. *)
Definition mask_positions (adata : AnnData) (g : list string) : list nat :=
  mask_select (isin (var_index adata) g) (seq 0 (n_vars adata)).

(** Every object of [h] is in [h'] at its location and in its storage; its
    matrix may have been written. *)
Definition same_storage (h h' : gmap loc pyobj) : Prop :=
  ∀ l o, h !! l = Some o → ∃ f, h' !! l = Some (obj_map_matrix f o).

(** The gene axis of the subset [adata[:, mask]] of lines 43-46: the genes
    of [adata] that are among the marker genes. *)
Definition subset_genes (adata_1 adata_2 : AnnData)
    (genes : option (list string)) (adata : AnnData) : list string :=
  mask_select (isin (var_index adata) (marker_genes adata_1 adata_2 genes))
              (var_index adata).

(** The entry that line 40 adds to the log. *)
Definition shared_message (adata_1 adata_2 : AnnData)
    (genes : option (list string)) : level * string :=
  (INFO, pretty (length (marker_genes adata_1 adata_2 genes)) +:+
         " marker genes shared by AnnDatas.").

End Model.

Arguments matrix F : clear implicits.
Arguments pyobj F : clear implicits.
Abbreviation dataframe F := (list (string * F)).
Arguments AnnData F : clear implicits.
Arguments state F : clear implicits.
Arguments M F A : clear implicits.
Arguments map_cells_to_space {F FF Mapper}.

(** ** float32 and float64 numbers *)

(** The values a float32 and a float64 hold: the special values and the
    finite numbers in the canonical encoding of the format. *)
Definition is_float32 (x : spec_float) : bool := valid_binary 24 128 x.
Definition is_float64 (x : spec_float) : bool := valid_binary 53 1024 x.

(** An array whose elements are float32 numbers. *)
Definition float32_array (a : matrix spec_float) : Prop :=
  Forall (Forall (λ x, is_float32 x = true)) (rows a).

(** The rational number that a zero or a finite value denotes. *)
Definition b_value (x : spec_float) : option Q :=
  match x with
  | S754_zero _ => Some 0%Q
  | S754_finite s m e => Some (inject_Z (if s then Zneg m else Zpos m) * Qpower 2 e)%Q
  | _ => None
  end.

(** Equality of two values as numbers, whatever the encoding of each: the
    same rational number, the same infinity, or NaN on both sides. *)
Definition same_value (x y : spec_float) : bool :=
  match b_value x, b_value y with
  | Some p, Some q => Qeq_bool p q
  | None, None =>
      match x, y with
      | S754_infinity s, S754_infinity s' => bool_decide (s = s')
      | S754_nan, S754_nan => true
      | _, _ => false
      end
  | _, _ => false
  end.

(** ** Parameters and data of the examples *)

(** A Mapper that accepts every input and whose training returns the given
    matrix. *)
Definition const_Mapper_init {F} :
    matrix F → matrix F → list F → string → option (AnnData F) →
    hyperparameters → gmap loc (pyobj F) → result unit :=
  λ _ _ _ _ _ _ _, Ok ().
Definition const_Mapper_train {F} (m : matrix F) : unit → F → Z → result (matrix F) :=
  λ _ _ _, Ok m.

(** The device strings [torch.device] accepts in the examples. *)
Definition example_torch_device (device : string) : result string :=
  if bool_decide (device ∈ ["cpu"; "cuda"; "cuda:0"; "cuda:1"]) then Ok device
  else Raise RuntimeError.

(** Three cells and three genes; two spots and two genes, in another order.
    Restricted to the shared genes (Gad1, Pvalb) the cells are
    [[1,0],[0,1],[0.5,0.5]] and the spots [[1,0],[0,1]]. *)
Definition ex_cells_X : matrix spec_float :=
  Matrix 3 [[b32_one; b32_two; b32_0];
            [b32_0; b32_0; b32_one];
            [b32_half; b32_half; b32_half]].

Definition ex_space_X : matrix spec_float :=
  Matrix 2 [[b32_0; b32_one];
            [b32_one; b32_0]].

Definition ex_cells : AnnData spec_float :=
  {| X := 0; obs_index := ["cell0"; "cell1"; "cell2"];
     var_index := ["Gad1"; "Sst"; "Pvalb"]; uns := ∅; adata_ref := None |}.

Definition ex_space : AnnData spec_float :=
  {| X := 1; obs_index := ["spot0"; "spot1"];
     var_index := ["Pvalb"; "Gad1"]; uns := ∅; adata_ref := None |}.

(** Both matrices sparse, and both dense. *)
Definition ex_sparse_state : state spec_float :=
  {| heap := <[1 := csc_matrix float32 ex_space_X]>
               (<[0 := csr_matrix float32 ex_cells_X]> ∅);
     log := [] |}.


(** A gene that occurs twice in the first dataset. *)
Definition ex_dup_cells : AnnData spec_float :=
  {| X := 0; obs_index := ["cell0"]; var_index := ["Gad1"; "Gad1"]; uns := ∅; adata_ref := None |}.

Definition ex_dup_space : AnnData spec_float :=
  {| X := 1; obs_index := ["spot0"]; var_index := ["Gad1"]; uns := ∅; adata_ref := None |}.

Definition ex_dup_state : state spec_float :=
  {| heap := <[1 := csr_matrix float32 (Matrix 1 [[b32_one]])]>
               (<[0 := csr_matrix float32 (Matrix 2 [[b32_one; b32_two]])]> ∅);
     log := [] |}.

(** Three genes in each dataset, in different orders, with a repetition. *)
Definition ex_rep_cells : AnnData spec_float :=
  {| X := 0; obs_index := ["cell0"]; var_index := ["Gad1"; "Sst"; "Sst"];
     uns := ∅; adata_ref := None |}.

Definition ex_rep_space : AnnData spec_float :=
  {| X := 1; obs_index := ["spot0"]; var_index := ["Sst"; "Gad1"; "Gad1"];
     uns := ∅; adata_ref := None |}.

Definition ex_rep_state : state spec_float :=
  {| heap := <[1 := csr_matrix float32 (Matrix 3 [[b32_one; b32_two; b32_two]])]>
               (<[0 := csr_matrix float32 (Matrix 3 [[b32_one; b32_two; b32_two]])]> ∅);
     log := [] |}.

(** Two datasets already restricted to the shared genes, the cells dense
    and the spots sparse, and a mapping of the three cells to the two
    spots. *)
Definition ex_aligned_cells : AnnData spec_float :=
  {| X := 0; obs_index := ["cell0"; "cell1"; "cell2"];
     var_index := ["Gad1"; "Pvalb"]; uns := ∅; adata_ref := None |}.

Definition ex_aligned_space : AnnData spec_float :=
  {| X := 1; obs_index := ["spot0"; "spot1"];
     var_index := ["Gad1"; "Pvalb"]; uns := ∅; adata_ref := None |}.

Definition ex_S : matrix spec_float :=
  Matrix 2 [[b32_one; b32_0]; [b32_0; b32_one]; [b32_half; b32_half]].

Definition ex_G : matrix spec_float :=
  Matrix 2 [[b32_one; b32_0]; [b32_0; b32_one]].

Definition ex_aligned_state : state spec_float :=
  {| heap := <[1 := csr_matrix float32 ex_G]> (<[0 := ndarray float32 ex_S]> ∅);
     log := [] |}.

Definition ex_mapping : matrix spec_float :=
  Matrix 2 [[b32_0; b32_one]; [b32_0; b32_one]; [b32_half; b32_half]].

(** The same spots with no expression of Pvalb at all. *)
Definition ex_silent_state : state spec_float :=
  {| heap := <[1 := csr_matrix float32 (Matrix 2 [[b32_one; b32_0]; [b32_0; b32_0]])]>
               (<[0 := ndarray float32 ex_S]> ∅);
     log := [] |}.

(** A mapping of one cell to one spot: not of the shape the example
    datasets ask for. *)
Definition ex_small_mapping : matrix spec_float := Matrix 1 [[b32_one]].

(** [map_cells_to_space] with the parameters of the examples. *)
Definition ex_map_cells (mode : string) (st : state spec_float)
    : result (AnnData spec_float) * state spec_float :=
  map_cells_to_space const_Mapper_init (const_Mapper_train ex_mapping)
    example_torch_device ex_aligned_cells ex_aligned_space mode None "cpu"
    b32_half 1000 st.

(** * Properties *)

Section Proofs.
Context {F : Type} {FF : Float F}.
Implicit Types (st : state F) (adata : AnnData F) (o : pyobj F) (a : matrix F).

(** ** Properties of [pp_adatas] *)

Lemma bind_run {A B} (m : M F A) (f : A → M F B) st :
  (m ≫= f) st =
  match m st with
  | (Ok a, st') => f a st'
  | (Raise e, st') => (Raise e, st')
  end.
Proof. reflexivity. Qed.

Lemma length_isin index values : length (isin index values) = length index.
Proof. unfold isin. by rewrite length_map. Qed.

Lemma mask_select_isin index values :
  mask_select (isin index values) index = filter (λ g, g ∈ values) index.
Proof.
  induction index as [|g index IH]; [done|].
  cbn [isin map mask_select]. rewrite filter_cons.
  fold (isin index values). rewrite IH.
  destruct (decide (g ∈ values)) as [Hin|Hin].
  - by rewrite bool_decide_true.
  - by rewrite bool_decide_false.
Qed.

Lemma filter_ext_in {A} (P Q : A → Prop) `{∀ x, Decision (P x)} `{∀ x, Decision (Q x)}
    (l : list A) :
  (∀ x, x ∈ l → (P x ↔ Q x)) → filter P l = filter Q l.
Proof.
  induction l as [|x l IH]; intros HPQ; [done|].
  rewrite !filter_cons, IH by (intros y Hy; apply HPQ; by right).
  destruct (decide (P x)) as [HP|HP], (decide (Q x)) as [HQ|HQ]; try done;
    exfalso; apply (HPQ x) in HP || apply (HPQ x) in HQ; (done || by left).
Qed.

Lemma marker_genes_filter adata_1 adata_2 genes :
  marker_genes adata_1 adata_2 genes =
  filter (λ g, g ∈ default (var_index adata_1) genes ∧ g ∈ var_index adata_1)
         (var_index adata_2).
Proof.
  unfold marker_genes. rewrite !mask_select_isin.
  apply list_filter_iff. intros g. rewrite list_elem_of_filter.
  destruct genes; simpl; tauto.
Qed.

Lemma elem_of_marker_genes adata_1 adata_2 genes g :
  g ∈ marker_genes adata_1 adata_2 genes ↔
  g ∈ default (var_index adata_1) genes ∧ g ∈ var_index adata_1 ∧ g ∈ var_index adata_2.
Proof. rewrite marker_genes_filter, list_elem_of_filter. tauto. Qed.


Lemma getitem_vars_mask_isin adata g st :
  getitem_vars_mask adata (isin (var_index adata) g) st =
  (Ok (subset_view adata (fresh (dom (heap st)))
         (filter (λ x, x ∈ g) (var_index adata)) (mask_positions adata g)),
   {| heap := <[fresh (dom (heap st)) := subset_obj st adata g]> (heap st);
      log := log st |}).
Proof.
  unfold getitem_vars_mask, n_vars.
  rewrite bool_decide_true by apply length_isin.
  by rewrite mask_select_isin.
Qed.

Lemma pp_adatas_unfold adata_1 adata_2 genes st :
  let g := marker_genes adata_1 adata_2 genes in
  let v1 := filter (λ x, x ∈ g) (var_index adata_1) in
  let v2 := filter (λ x, x ∈ g) (var_index adata_2) in
  let st0 := {| heap := heap st;
                log := log st ++ [(INFO, pretty (length g) +:+ " marker genes shared by AnnDatas.")] |} in
  let l1 := fresh (dom (heap st0)) in
  let st1 := {| heap := <[l1 := subset_obj st0 adata_1 g]> (heap st0); log := log st0 |} in
  let l2 := fresh (dom (heap st1)) in
  let st2 := {| heap := <[l2 := subset_obj st1 adata_2 g]> (heap st1); log := log st1 |} in
  let view_1 := subset_view adata_1 l1 v1 (mask_positions adata_1 g) in
  let view_2 := subset_view adata_2 l2 v2 (mask_positions adata_2 g) in
  pp_adatas adata_1 adata_2 genes st =
  (assert_ (bool_decide (length v2 = length v1));;
   adata_2 ← getitem_vars_names view_2 v1;
   assert_ (bool_decide (var_index adata_2 = v1));;
   adata_1 ← cast_to_numpy view_1;
   adata_2 ← cast_to_numpy adata_2;
   mret (adata_1, adata_2)) st2.
Proof.
  intros. unfold pp_adatas. fold g.
  rewrite bind_run. cbn [logging_info]. fold st0.
  rewrite bind_run, getitem_vars_mask_isin. fold l1 st1 v1 view_1.
  rewrite bind_run, getitem_vars_mask_isin. fold l2 st2 v2 view_2.
  reflexivity.
Qed.


Lemma assert_ok (b : bool) st u st' :
  assert_ b st = (Ok u, st') → b = true ∧ st' = st.
Proof. destruct b; cbn; intros [= <-]; auto. Qed.

Lemma assert_false st : assert_ false st = (@Raise unit AssertionError, st).
Proof. reflexivity. Qed.

(** Python's [~isinstance(...)] is true whatever [isinstance] answers. *)
Lemma truth_invert (b : bool) : truth (invert b) = true.
Proof. by destruct b. Qed.

Lemma cast_to_numpy_run adata st :
  cast_to_numpy adata st =
  match toarray (X_of st adata) with
  | Ok a => set_X adata (obj_dtype (X_of st adata)) a st
  | Raise e => (Raise e, st)
  end.
Proof.
  unfold cast_to_numpy. rewrite bind_run. cbn [deref].
  rewrite truth_invert. rewrite bind_run. cbn [deref].
  rewrite bind_run. unfold lift.
  by destruct (toarray _).
Qed.

Lemma set_X_var_index adata dt a st adata' st' :
  set_X adata dt a st = (Ok adata', st') →
  var_index adata' = var_index adata ∧ obs_index adata' = obs_index adata.
Proof.
  unfold set_X. destruct (adata_ref adata) as [[p idx]|]; by intros [= <- <-].
Qed.

Lemma cast_to_numpy_var_index adata st adata' st' :
  cast_to_numpy adata st = (Ok adata', st') →
  var_index adata' = var_index adata ∧ obs_index adata' = obs_index adata.
Proof.
  rewrite cast_to_numpy_run. destruct (toarray _); [|done].
  apply set_X_var_index.
Qed.

Lemma pp_adatas_ok_inv adata_1 adata_2 genes st r1 r2 st' :
  pp_adatas adata_1 adata_2 genes st = (Ok (r1, r2), st') →
  let g := marker_genes adata_1 adata_2 genes in
  var_index r1 = filter (λ x, x ∈ g) (var_index adata_1) ∧
  var_index r2 = var_index r1 ∧
  length (filter (λ x, x ∈ g) (var_index adata_2)) = length (var_index r1).
Proof.
  rewrite pp_adatas_unfold. cbv zeta.
  rewrite bind_run.
  destruct (assert_ _ _) as [[[]|e] s1] eqn:E1; [|done].
  apply assert_ok in E1 as [Hlen ->]. apply bool_decide_eq_true in Hlen.
  rewrite bind_run.
  destruct (getitem_vars_names _ _ _) as [[v2|e] s2] eqn:E2; [|done].
  rewrite bind_run.
  destruct (assert_ _ s2) as [[[]|e] s3] eqn:E3; [|done].
  apply assert_ok in E3 as [Heq ->]. apply bool_decide_eq_true in Heq.
  rewrite bind_run.
  destruct (cast_to_numpy _ s2) as [[c1|e] s4] eqn:E4; [|done].
  rewrite bind_run.
  destruct (cast_to_numpy v2 s4) as [[c2|e] s5] eqn:E5; [|done].
  intros [= <- <- <-].
  apply cast_to_numpy_var_index in E4 as [E4 _], E5 as [E5 _].
  cbn in E4. rewrite E4, E5, Heq. auto.
Qed.


(** The genes of the first dataset returned: the candidates that both
    datasets have, in the order of the first dataset. *)
Lemma pp_adatas_ok_genes adata_1 adata_2 genes st r1 r2 st' :
  pp_adatas adata_1 adata_2 genes st = (Ok (r1, r2), st') →
  var_index r1 =
    filter (λ g, g ∈ default (var_index adata_1) genes ∧ g ∈ var_index adata_2)
           (var_index adata_1) ∧
  ∀ g, g ∈ var_index r1 ↔
       g ∈ default (var_index adata_1) genes ∧
       g ∈ var_index adata_1 ∧ g ∈ var_index adata_2.
Proof.
  intros Hrun. apply pp_adatas_ok_inv in Hrun as (H1 & _ & _).
  assert (var_index r1 =
    filter (λ g, g ∈ default (var_index adata_1) genes ∧ g ∈ var_index adata_2)
           (var_index adata_1)) as H3.
  { rewrite H1. apply filter_ext_in. intros g Hg.
    rewrite elem_of_marker_genes. tauto. }
  split; [done|].
  intros g. rewrite H3, list_elem_of_filter. tauto.
Qed.

(** Claim C6.  Whenever [pp_adatas] returns, the two datasets it returns have
    gene axes of the same length and in the same order; the genes are those
    of the candidate list (all genes of the first dataset when no list is
    given) that both datasets have, in the order of the first dataset. *)
Theorem pp_adatas_shared_genes adata_1 adata_2 genes st r1 r2 st' :
  pp_adatas adata_1 adata_2 genes st = (Ok (r1, r2), st') →
  n_vars r2 = n_vars r1 ∧
  var_index r2 = var_index r1 ∧
  var_index r1 =
    filter (λ g, g ∈ default (var_index adata_1) genes ∧ g ∈ var_index adata_2)
           (var_index adata_1) ∧
  ∀ g, g ∈ var_index r1 ↔
       g ∈ default (var_index adata_1) genes ∧
       g ∈ var_index adata_1 ∧ g ∈ var_index adata_2.
Proof.
  intros Hrun.
  destruct (pp_adatas_ok_inv _ _ _ _ _ _ _ Hrun) as (_ & H21 & _).
  destruct (pp_adatas_ok_genes _ _ _ _ _ _ _ Hrun) as (H1 & Hg).
  split; [unfold n_vars; congruence|]. by split.
Qed.

(** Claim C10.  Without a candidate list, [pp_adatas] behaves as with the
    gene list of the first dataset as candidates: the shared genes are the
    genes the two datasets have in common. *)
Theorem pp_adatas_default_genes adata_1 adata_2 :
  pp_adatas adata_1 adata_2 None = pp_adatas adata_1 adata_2 (Some (var_index adata_1)) ∧
  (∀ g, g ∈ marker_genes adata_1 adata_2 None ↔
        g ∈ var_index adata_1 ∧ g ∈ var_index adata_2) ∧
  (∀ st r1 r2 st', pp_adatas adata_1 adata_2 None st = (Ok (r1, r2), st') →
     ∀ g, g ∈ var_index r1 ↔ g ∈ var_index adata_1 ∧ g ∈ var_index adata_2).
Proof.
  split; [reflexivity|]. split.
  - intros g. rewrite elem_of_marker_genes. simpl. tauto.
  - intros st r1 r2 st' Hrun g.
    apply pp_adatas_ok_genes in Hrun as (_ & H).
    rewrite H. simpl. tauto.
Qed.


(** *** The heap *)

Lemma fresh_heap_None (h : gmap loc (pyobj F)) : h !! fresh (dom h) = None.
Proof. apply not_elem_of_dom, is_fresh. Qed.

Lemma insert_fresh_subseteq (h : gmap loc (pyobj F)) o :
  h ⊆ <[fresh (dom h) := o]> h.
Proof. apply insert_subseteq, fresh_heap_None. Qed.

Lemma insert_fresh_lookup (h : gmap loc (pyobj F)) o l o' :
  h !! l = Some o' → <[fresh (dom h) := o]> h !! l = Some o'.
Proof. intros Hl. eapply lookup_weaken; [done|apply insert_fresh_subseteq]. Qed.

Lemma fresh_insert_ne (h : gmap loc (pyobj F)) l o : fresh (dom (<[l := o]> h)) ≠ l.
Proof.
  intros Heq. pose proof (fresh_heap_None (<[l := o]> h)) as Hf.
  rewrite Heq in Hf. by rewrite lookup_insert_eq in Hf.
Qed.

(** *** Ingestion *)

Lemma ingest_recognized o a st :
  obj_matrix o = Some a →
  ingest o st =
  (Ok (fresh (dom (heap st))),
   {| heap := <[fresh (dom (heap st)) := ndarray float32 (astype_float32 a)]> (heap st);
      log := log st |}).
Proof. destruct o; intros [= <-]; reflexivity. Qed.

Lemma ingest_other ty st :
  ingest (other ty) st =
  (Raise NotImplementedError,
   {| heap := heap st;
      log := log st ++ [(ERROR, "AnnData X has unrecognized type: " +:+ ty)] |}).
Proof. reflexivity. Qed.

Lemma shape_astype_float32 a : shape (astype_float32 a) = shape a.
Proof. unfold shape, nrows, astype_float32. cbn. by rewrite length_map. Qed.



Lemma deref_alloc_other (h : gmap loc (pyobj F)) o l o' lg :
  h !! l = Some o' →
  deref l {| heap := <[fresh (dom h) := o]> h; log := lg |} =
  (Ok o', {| heap := <[fresh (dom h) := o]> h; log := lg |}).
Proof. intros Hl. unfold deref. cbn. by rewrite (insert_fresh_lookup _ _ _ _ Hl). Qed.

Lemma deref_ndarray_alloc (h : gmap loc (pyobj F)) dt a lg :
  deref_ndarray (fresh (dom h)) {| heap := <[fresh (dom h) := ndarray dt a]> h; log := lg |} =
  (Ok a, {| heap := <[fresh (dom h) := ndarray dt a]> h; log := lg |}).
Proof. unfold deref_ndarray. rewrite bind_run. unfold deref. cbn. by rewrite lookup_insert_eq. Qed.

(** *** Ranking *)

Lemma insert_asc_perm x (l : dataframe F) : insert_asc x l ≡ₚ x :: l.
Proof.
  induction l as [|y l IH]; [done|]. cbn.
  destruct (f_leb x.2 y.2); [done|]. rewrite IH. apply Permutation_swap.
Qed.

Lemma argsort_perm (l : dataframe F) : argsort l ≡ₚ l.
Proof.
  induction l as [|x l IH]; [done|]. cbn. fold (argsort l).
  by rewrite insert_asc_perm, IH.
Qed.

Lemma insert_asc_sorted `{!FloatOrder F} x (l : dataframe F) :
  f_isnan x.2 = false → Forall (λ p, f_isnan p.2 = false) l →
  Sorted score_asc l → Sorted score_asc (insert_asc x l).
Proof.
  intros Hx Hl Hs. induction Hs as [|y l Hs IH Hhd]; cbn.
  { repeat constructor. }
  apply Forall_cons in Hl as [Hy Hl].
  destruct (f_leb x.2 y.2) eqn:Hxy.
  - constructor; [by constructor|]. by constructor.
  - constructor; [by apply IH|].
    assert (score_asc y x) as Hyx.
    { destruct (f_leb_total x.2 y.2 Hx Hy) as [H'|H']; [congruence|done]. }
    destruct Hhd as [|z l Hyz]; cbn; [by constructor|].
    destruct (f_leb x.2 z.2); by constructor.
Qed.

Lemma argsort_sorted `{!FloatOrder F} (l : dataframe F) :
  Forall (λ p, f_isnan p.2 = false) l → Sorted score_asc (argsort l).
Proof.
  induction 1 as [|x l Hx Hl IH]; cbn; [constructor|]. fold (argsort l).
  apply insert_asc_sorted; [done| |done].
  by rewrite argsort_perm.
Qed.

Lemma sort_values_perm (df : dataframe F) : sort_values df ≡ₚ df.
Proof.
  unfold sort_values.
  rewrite reverse_Permutation, argsort_perm, reverse_Permutation.
  induction df as [|p df IH]; [done|].
  rewrite !filter_cons.
  destruct (f_isnan p.2); repeat case_decide; try done; cbn.
  - rewrite <- Permutation_middle. by f_equiv.
  - by f_equiv.
Qed.

(** The rows with a missing score are put last. *)
Lemma sort_values_nans_last (df : dataframe F) p :
  p ∈ df → f_isnan p.2 = true →
  ∃ front back,
    sort_values df = front ++ back ∧
    Forall (λ q, f_isnan q.2 = false) front ∧
    Forall (λ q, f_isnan q.2 = true) back ∧
    p ∈ back.
Proof.
  intros Hp Hnan. unfold sort_values. eexists _, _. split; [reflexivity|].
  split; [|split].
  - apply Forall_forall. intros q Hq.
    rewrite elem_of_reverse, argsort_perm, elem_of_reverse in Hq.
    by apply list_elem_of_filter in Hq as [? _].
  - apply Forall_forall. intros q Hq. by apply list_elem_of_filter in Hq as [? _].
  - by apply list_elem_of_filter.
Qed.

Lemma Sorted_app_rel {A} (R : relation A) (l1 l2 : list A) :
  Sorted R l1 → Sorted R l2 → (∀ x y, x ∈ l1 → y ∈ l2 → R x y) →
  Sorted R (l1 ++ l2).
Proof.
  intros H1 H2 H. induction H1 as [|x l1 H1 IH Hhd]; [done|]. cbn.
  constructor.
  - apply IH. intros ????. apply H; [by right|done].
  - destruct Hhd as [|z l1 Hxz]; cbn; [|by constructor].
    destruct H2 as [|y l2 _ _]; constructor. apply H; by left.
Qed.

Lemma Sorted_all_rel {A} (R : relation A) (l : list A) :
  (∀ x y, y ∈ l → R x y) → Sorted R l.
Proof.
  induction l as [|x l IH]; intros H; constructor.
  - apply IH. intros ???. apply H. by right.
  - destruct l; constructor. apply H. right. by left.
Qed.

Lemma Sorted_weaken_on {A} (R R' : relation A) (l : list A) :
  (∀ x y, x ∈ l → y ∈ l → R x y → R' x y) → Sorted R l → Sorted R' l.
Proof.
  intros H Hs. induction Hs as [|x l Hs IH Hhd]; constructor.
  - apply IH. intros ?????. apply H; by try right.
  - destruct Hhd; constructor. apply H; [by left|right; by left|done].
Qed.

Lemma sort_values_sorted `{!FloatOrder F} (df : dataframe F) :
  Sorted score_desc (sort_values df).
Proof.
  unfold sort_values.
  set (non_nans := filter (λ p, f_isnan p.2 = false) df).
  set (nans := filter (λ p, f_isnan p.2 = true) df).
  assert (Forall (λ p : string * F, f_isnan p.2 = false) (reverse non_nans)) as Hnn.
  { apply Forall_forall. intros p Hp. rewrite elem_of_reverse in Hp.
    by apply list_elem_of_filter in Hp as [? _]. }
  apply Sorted_app_rel.
  - apply (Sorted_weaken_on (flip score_asc)).
    + intros p q Hp Hq Hpq. right.
      rewrite elem_of_reverse, argsort_perm in Hp, Hq.
      rewrite Forall_forall in Hnn. auto.
    + apply Sorted_reverse. by apply argsort_sorted.
  - apply Sorted_all_rel. intros p q Hq. left.
    by apply list_elem_of_filter in Hq as [? _].
  - intros p q _ Hq. left. by apply list_elem_of_filter in Hq as [? _].
Qed.

(** *** The conversion loop of [pp_adatas] *)

Lemma index_of_elem g (index : list string) :
  g ∈ index → ∃ i, index_of g index = Some i ∧ nth i index "" = g.
Proof.
  induction index as [|y index IH]; intros Hg; [by apply elem_of_nil in Hg|].
  cbn. destruct (decide (y = g)) as [->|Hne]; [by exists 0|].
  apply elem_of_cons in Hg as [->|Hg]; [done|].
  destruct (IH Hg) as (i & -> & Hi). by exists (S i).
Qed.

Lemma get_indexer_ok (index target : list string) :
  NoDup index → (∀ g, g ∈ target → g ∈ index) →
  ∃ idx, get_indexer index target = Ok idx ∧
         (λ j, nth j index "") <$> idx = target.
Proof.
  intros Hnd Hsub. unfold get_indexer. rewrite bool_decide_true by done.
  induction target as [|g target IH]; [by exists []|].
  destruct (index_of_elem g index) as (i & Hi & Hnth); [apply Hsub; by left|].
  destruct IH as (idx & Hidx & Hmap); [intros ??; apply Hsub; by right|].
  exists (i :: idx). cbn. rewrite Hi. cbn. rewrite Hidx. cbn.
  by rewrite Hnth, Hmap.
Qed.

Lemma getitem_vars_names_run adata names st idx :
  get_indexer (var_index adata) names = Ok idx →
  getitem_vars_names adata names st =
  (Ok (subset_view adata (fresh (dom (heap st)))
         ((λ j, nth j (var_index adata) "") <$> idx) idx),
   {| heap := <[fresh (dom (heap st)) := obj_map_matrix (take_cols idx) (X_of st adata)]>
                (heap st);
      log := log st |}).
Proof.
  intros Hidx. unfold getitem_vars_names. rewrite bind_run. unfold lift.
  by rewrite Hidx.
Qed.

(** The subsets of the two gene axes hold the same genes. *)
Lemma subset_1_in_subset_2 adata_1 adata_2 genes x :
  let g := marker_genes adata_1 adata_2 genes in
  x ∈ filter (λ x, x ∈ g) (var_index adata_1) →
  x ∈ filter (λ x, x ∈ g) (var_index adata_2).
Proof.
  intros g. rewrite !list_elem_of_filter. intros [Hg _]. split; [done|].
  by apply elem_of_marker_genes in Hg as (_ & _ & ?).
Qed.

Lemma subsets_same_length adata_1 adata_2 genes :
  NoDup (var_index adata_1) → NoDup (var_index adata_2) →
  let g := marker_genes adata_1 adata_2 genes in
  length (filter (λ x, x ∈ g) (var_index adata_2)) =
  length (filter (λ x, x ∈ g) (var_index adata_1)).
Proof.
  intros H1 H2 g. apply Permutation_length, NoDup_Permutation.
  - by apply NoDup_filter.
  - by apply NoDup_filter.
  - intros x. rewrite !list_elem_of_filter. unfold g.
    rewrite elem_of_marker_genes. tauto.
Qed.


Lemma fresh_ne (h : gmap loc (pyobj F)) l o : h !! l = Some o → fresh (dom h) ≠ l.
Proof. intros Hl Heq. pose proof (fresh_heap_None h) as Hf. congruence. Qed.

Lemma X_of_alloc (h : gmap loc (pyobj F)) lg lg' o adata :
  is_Some (h !! X adata) →
  X_of {| heap := <[fresh (dom h) := o]> h; log := lg |} adata =
  X_of {| heap := h; log := lg' |} adata.
Proof.
  intros [o' Ho]. unfold X_of. cbn. by rewrite (insert_fresh_lookup _ _ _ _ Ho), Ho.
Qed.

Lemma X_of_fresh (h : gmap loc (pyobj F)) lg o obs var u ref :
  X_of {| heap := <[fresh (dom h) := o]> h; log := lg |}
       {| X := fresh (dom h); obs_index := obs; var_index := var; uns := u;
          adata_ref := ref |} = o.
Proof. unfold X_of. cbn. by rewrite lookup_insert_eq. Qed.

(** The run of [pp_adatas] up to the conversion loop, when the checks of
    lines 47-51 pass. *)
Lemma pp_adatas_aligned_run adata_1 adata_2 genes st :
  let g := marker_genes adata_1 adata_2 genes in
  let v1 := filter (λ x, x ∈ g) (var_index adata_1) in
  let v2 := filter (λ x, x ∈ g) (var_index adata_2) in
  let st0 := {| heap := heap st;
                log := log st ++ [(INFO, pretty (length g) +:+ " marker genes shared by AnnDatas.")] |} in
  let l1 := fresh (dom (heap st0)) in
  let st1 := {| heap := <[l1 := subset_obj st0 adata_1 g]> (heap st0); log := log st0 |} in
  let l2 := fresh (dom (heap st1)) in
  let st2 := {| heap := <[l2 := subset_obj st1 adata_2 g]> (heap st1); log := log st1 |} in
  length v2 = length v1 → NoDup v2 →
  ∃ idx,
    get_indexer v2 v1 = Ok idx ∧
    let l3 := fresh (dom (heap st2)) in
    let st3 := {| heap := <[l3 := obj_map_matrix (take_cols idx) (subset_obj st1 adata_2 g)]>
                            (heap st2);
                  log := log st2 |} in
    let view_1 := subset_view adata_1 l1 v1 (mask_positions adata_1 g) in
    let view_2 := subset_view adata_2 l2 v2 (mask_positions adata_2 g) in
    let view_3 := subset_view view_2 l3 v1 idx in
    pp_adatas adata_1 adata_2 genes st =
    (adata_1 ← cast_to_numpy view_1;
     adata_2 ← cast_to_numpy view_3;
     mret (adata_1, adata_2)) st3.
Proof.
  intros g v1 v2 st0 l1 st1 l2 st2 Hlen Hnd.
  destruct (get_indexer_ok v2 v1 Hnd) as (idx & Hidx & Hmap).
  { intros x. apply subset_1_in_subset_2. }
  exists idx. split; [done|]. intros l3 st3 view_1 view_2 view_3.
  rewrite pp_adatas_unfold. cbv zeta. fold g v1 v2 st0 l1 st1 l2 st2 view_1 view_2.
  rewrite bind_run, bool_decide_true by done. cbn [assert_ mret M_ret].
  rewrite bind_run.
  erewrite getitem_vars_names_run by exact Hidx.
  change (var_index view_2) with v2. rewrite Hmap.
  assert (X_of st2 view_2 = subset_obj st1 adata_2 g) as -> by apply X_of_fresh.
  fold l3 st3.
  rewrite bind_run, bool_decide_true by done. reflexivity.
Qed.


Lemma toarray_map (f : matrix F → matrix F) o :
  toarray (obj_map_matrix f o) = f <$> toarray o.
Proof. by destruct o. Qed.

Lemma obj_dtype_map (f : matrix F → matrix F) o :
  obj_dtype (obj_map_matrix f o) = obj_dtype o.
Proof. by destruct o. Qed.

Lemma toarray_raises o e : toarray o = Raise e → e = AttributeError.
Proof. destruct o; by intros [= <-]. Qed.

Lemma X_of_lookup st adata o : heap st !! X adata = Some o → X_of st adata = o.
Proof. intros Ho. unfold X_of. by rewrite Ho. Qed.

Lemma get_indexer_positions (index target : list string) idx :
  get_indexer index target = Ok idx →
  Forall2 (λ g i, index_of g index = Some i) target idx.
Proof.
  unfold get_indexer. case_bool_decide; [|done].
  revert idx. induction target as [|g target IH]; intros idx.
  { intros [= <-]. constructor. }
  cbn. destruct (index_of g index) as [i|] eqn:Hi; [|done]. cbn.
  destruct (mapM _ target) as [idx'|e]; [|done]. cbn.
  intros [= <-]. constructor; [done|by apply IH].
Qed.

Lemma lookup_map {A B} (f : A → B) (l : list A) i : map f l !! i = f <$> l !! i.
Proof. exact (list_lookup_fmap f l i). Qed.

Lemma get_col_take_cols idx a k j :
  idx !! k = Some j → get_col k (take_cols idx a) = get_col j a.
Proof.
  intros Hk. unfold get_col, take_cols. cbn. rewrite map_map.
  apply map_ext. intros r.
  apply nth_lookup_Some. by rewrite lookup_map, Hk.
Qed.

Lemma index_of_lookup g (l : list string) k : index_of g l = Some k → l !! k = Some g.
Proof.
  revert k. induction l as [|y l IH]; intros k; [done|]. cbn.
  destruct (decide (y = g)) as [->|Hne]; [by intros [= <-]|].
  destruct (index_of g l) as [k'|]; [|done]. intros [= <-]. by apply IH.
Qed.

(** Reordering by names keeps the column of every gene. *)
Lemma gene_col_take_cols (names target : list string) idx a g :
  Forall2 (λ g i, index_of g names = Some i) target idx →
  g ∈ target →
  gene_col target (take_cols idx a) g = gene_col names a g.
Proof.
  intros Hidx Hg. unfold gene_col.
  destruct (index_of_elem g target Hg) as (k & Hk & _). rewrite Hk. cbn.
  apply index_of_lookup in Hk as Hgk.
  destruct (Forall2_lookup_l _ _ _ _ _ Hidx Hgk) as (j & Hj & Hgj).
  rewrite Hgj. cbn. f_equal. by apply get_col_take_cols.
Qed.

Lemma nth_mask_select (P : string → Prop) `{∀ x, Decision (P x)}
    (names : list string) (r : list F) x k j d :
  index_of x (filter P names) = Some k → index_of x names = Some j →
  nth k (mask_select (map (λ g, bool_decide (P g)) names) r) d = nth j r d.
Proof.
  revert r k j. induction names as [|y names IH]; intros r k j; [done|].
  rewrite filter_cons. cbn [map index_of mask_select].
  destruct (decide (y = x)) as [->|Hne].
  - intros Hk [= <-]. destruct (decide (P x)) as [HP|HP].
    + cbn in Hk. rewrite decide_True in Hk by done. injection Hk as <-.
      rewrite bool_decide_true by done. by destruct r.
    + (* a gene outside [P] is not selected *)
      assert (x ∈ filter P names) as Hx.
      { apply index_of_lookup in Hk. by eapply list_elem_of_lookup_2. }
      by apply list_elem_of_filter in Hx as [? _].
  - destruct (index_of x names) as [j'|] eqn:Hj'; [|done]. intros Hk [= <-].
    destruct (decide (P y)) as [HP|HP].
    + cbn in Hk. rewrite decide_False in Hk by done.
      destruct (index_of x (filter P names)) as [k'|] eqn:Hk'; [|done].
      injection Hk as <-. rewrite bool_decide_true by done.
      destruct r as [|e r]; [by destruct k', j'|]. cbn. by apply IH.
    + rewrite bool_decide_false by done.
      destruct r as [|e r]; [by destruct k, j'|]. cbn. by apply IH.
Qed.

(** Subsetting by a mask keeps the column of every selected gene. *)
Lemma gene_col_select (names g : list string) a x :
  x ∈ names → x ∈ g →
  gene_col (filter (λ x, x ∈ g) names) (select_cols_mask (isin names g) a) x =
  gene_col names a x.
Proof.
  intros Hx Hg. unfold gene_col.
  destruct (index_of_elem x names Hx) as (j & Hj & _).
  destruct (index_of_elem x (filter (λ x, x ∈ g) names)) as (k & Hk & _).
  { by apply list_elem_of_filter. }
  rewrite Hj, Hk. cbn. f_equal. unfold get_col, select_cols_mask. cbn.
  rewrite map_map. apply map_ext. intros r.
  by apply (nth_mask_select (λ x, x ∈ g) names r x k j f_zero).
Qed.

(** *** The checks of lines 47-51 *)

(** Selecting the marker genes in the second dataset gives the marker genes
    back: they were selected from its gene axis (line 39). *)
Lemma filter_marker_genes adata_1 adata_2 genes :
  filter (λ x, x ∈ marker_genes adata_1 adata_2 genes) (var_index adata_2) =
  marker_genes adata_1 adata_2 genes.
Proof.
  etrans; [|symmetry; apply marker_genes_filter].
  apply filter_ext_in. intros x Hx. rewrite elem_of_marker_genes. tauto.
Qed.

Lemma NoDup_same_length {A} (l1 l2 : list A) :
  NoDup l2 → (∀ x, x ∈ l2 → x ∈ l1) → length l1 = length l2 → NoDup l1.
Proof.
  intros Hnd Hsub Hlen.
  assert (l2 ≡ₚ l1) as <-; [|done].
  apply submseteq_length_Permutation; [by apply NoDup_submseteq|lia].
Qed.

Lemma subset_genes_filter adata_1 adata_2 genes adata :
  subset_genes adata_1 adata_2 genes adata =
  filter (λ x, x ∈ marker_genes adata_1 adata_2 genes) (var_index adata).
Proof. apply mask_select_isin. Qed.

Lemma subset_genes_2 adata_1 adata_2 genes :
  subset_genes adata_1 adata_2 genes adata_2 = marker_genes adata_1 adata_2 genes.
Proof. rewrite subset_genes_filter. apply filter_marker_genes. Qed.

Lemma elem_of_subset_genes_1 adata_1 adata_2 genes x :
  x ∈ subset_genes adata_1 adata_2 genes adata_1 ↔
  x ∈ marker_genes adata_1 adata_2 genes.
Proof.
  rewrite subset_genes_filter, list_elem_of_filter, elem_of_marker_genes. tauto.
Qed.

(** The subsets differ in length: the check of line 47 fails. *)
Lemma pp_adatas_mismatch_run adata_1 adata_2 genes st :
  length (subset_genes adata_1 adata_2 genes adata_2) ≠
  length (subset_genes adata_1 adata_2 genes adata_1) →
  ∃ st', pp_adatas adata_1 adata_2 genes st = (Raise AssertionError, st') ∧
         log st' = log st ++ [shared_message adata_1 adata_2 genes] ∧
         heap st ⊆ heap st'.
Proof.
  rewrite !subset_genes_filter. intros Hne.
  rewrite pp_adatas_unfold. cbv zeta.
  rewrite bind_run, bool_decide_false by done.
  eexists. split; [reflexivity|]. split; [done|]. cbn.
  etrans; [|apply insert_fresh_subseteq]. apply insert_fresh_subseteq.
Qed.

(** The subsets have the same length and a gene is repeated in the second:
    the reordering of line 50 is refused. *)
Lemma pp_adatas_repeated_run adata_1 adata_2 genes st :
  length (subset_genes adata_1 adata_2 genes adata_2) =
  length (subset_genes adata_1 adata_2 genes adata_1) →
  ¬ NoDup (subset_genes adata_1 adata_2 genes adata_2) →
  ∃ st', pp_adatas adata_1 adata_2 genes st = (Raise InvalidIndexError, st') ∧
         log st' = log st ++ [shared_message adata_1 adata_2 genes] ∧
         heap st ⊆ heap st'.
Proof.
  rewrite !subset_genes_filter. intros Hlen Hnd.
  rewrite pp_adatas_unfold. cbv zeta.
  rewrite bind_run, bool_decide_true by done. cbn [assert_ mret M_ret].
  rewrite bind_run. unfold getitem_vars_names. rewrite bind_run. unfold lift.
  cbn [var_index]. unfold get_indexer. rewrite bool_decide_false by done.
  eexists. split; [reflexivity|]. split; [done|]. cbn.
  etrans; [|apply insert_fresh_subseteq]. apply insert_fresh_subseteq.
Qed.

(** *** Writes through a view *)

Lemma obj_map_matrix_id o : obj_map_matrix (λ a, a) o = o.
Proof. by destruct o. Qed.

Lemma obj_map_matrix_compose (f g : matrix F → matrix F) o :
  obj_map_matrix g (obj_map_matrix f o) = obj_map_matrix (g ∘ f) o.
Proof. by destruct o. Qed.

(** Writing to an object the matrix it holds changes nothing. *)
Lemma obj_map_matrix_toarray o a :
  toarray o = Ok a → obj_map_matrix (λ _, a) o = o.
Proof. destruct o; intros [= <-]; done. Qed.

Lemma same_storage_refl (h : gmap loc (pyobj F)) : same_storage h h.
Proof. intros l o Hl. exists (λ a, a). by rewrite obj_map_matrix_id. Qed.

Lemma same_storage_trans (h1 h2 h3 : gmap loc (pyobj F)) :
  same_storage h1 h2 → same_storage h2 h3 → same_storage h1 h3.
Proof.
  intros H12 H23 l o Hl. destruct (H12 l o Hl) as [f Hf].
  destruct (H23 l _ Hf) as [g Hg]. exists (g ∘ f).
  by rewrite Hg, obj_map_matrix_compose.
Qed.

Lemma same_storage_alter (f : matrix F → matrix F) p (h : gmap loc (pyobj F)) :
  same_storage h (alter (obj_map_matrix f) p h).
Proof.
  intros l o Hl. destruct (decide (l = p)) as [->|Hne].
  - exists f. by rewrite lookup_alter_eq, Hl.
  - exists (λ a, a). by rewrite lookup_alter_ne, obj_map_matrix_id.
Qed.

Lemma same_storage_insert_fresh (h : gmap loc (pyobj F)) o :
  same_storage h (<[fresh (dom h) := o]> h).
Proof.
  intros l o' Hl. exists (λ a, a).
  rewrite obj_map_matrix_id. by apply insert_fresh_lookup.
Qed.

Lemma same_storage_is_Some (h h' : gmap loc (pyobj F)) l :
  same_storage h h' → is_Some (h !! l) → is_Some (h' !! l).
Proof. intros Hs [o Hl]. destruct (Hs l o Hl) as [f Hf]. eauto. Qed.

(** The effects of [adata.X = value]. *)
Lemma set_X_outcome adata dt a st :
  ∃ adata' st',
    set_X adata dt a st = (Ok adata', st') ∧
    log st' = log st ∧ same_storage (heap st) (heap st') ∧
    var_index adata' = var_index adata ∧ obs_index adata' = obs_index adata ∧
    (is_Some (heap st !! X adata) → is_Some (heap st' !! X adata')).
Proof.
  unfold set_X. destruct (adata_ref adata) as [[p idx]|].
  - eexists _, _. split; [reflexivity|]. cbn [heap log].
    assert (same_storage (heap st)
              (alter (obj_map_matrix (λ _, a)) (X adata)
                 (alter (obj_map_matrix (put_cols idx a)) p (heap st)))) as Hs.
    { eapply same_storage_trans; apply same_storage_alter. }
    do 4 (split; [done|]). by apply same_storage_is_Some.
  - eexists _, _. split; [reflexivity|]. cbn [heap log X var_index obs_index].
    split; [done|]. split; [apply same_storage_insert_fresh|].
    do 2 (split; [done|]). intros _. by rewrite lookup_insert_eq.
Qed.

(** One round of the loop of lines 54-56 on a dataset that holds an [X]:
    it raises [AttributeError] unless the [X] has [toarray]. *)
Lemma cast_to_numpy_outcome adata st o r st' :
  heap st !! X adata = Some o →
  cast_to_numpy adata st = (r, st') →
  log st' = log st ∧ same_storage (heap st) (heap st') ∧
  match r with
  | Ok adata' =>
      (∃ a, toarray o = Ok a) ∧
      var_index adata' = var_index adata ∧ obs_index adata' = obs_index adata ∧
      is_Some (heap st' !! X adata')
  | Raise e => e = AttributeError ∧ toarray o = Raise AttributeError
  end.
Proof.
  intros Ho. rewrite cast_to_numpy_run, (X_of_lookup _ _ _ Ho).
  destruct (toarray o) as [a|e] eqn:Ha.
  - destruct (set_X_outcome adata (obj_dtype o) a st)
      as (adata' & st'' & -> & Hlog & Hs & Hv & Hobs & HX).
    intros [= <- <-]. do 2 (split; [done|]). split; [by eexists|].
    do 2 (split; [done|]). apply HX. by eexists.
  - intros [= <- <-]. apply toarray_raises in Ha as ->.
    split; [done|]. split; [apply same_storage_refl|]. done.
Qed.

(** The effect of a round on a view whose [X] has [toarray]: the values are
    written into the AnnData viewed. *)
Lemma cast_to_numpy_view adata st p idx o a :
  adata_ref adata = Some (p, idx) →
  heap st !! X adata = Some o → toarray o = Ok a →
  cast_to_numpy adata st =
  (Ok adata,
   {| heap := alter (obj_map_matrix (λ _, a)) (X adata)
                (alter (obj_map_matrix (put_cols idx a)) p (heap st));
      log := log st |}).
Proof.
  intros Href Ho Ha. rewrite cast_to_numpy_run, (X_of_lookup _ _ _ Ho), Ha.
  unfold set_X. by rewrite Href.
Qed.

(** The run of [pp_adatas] once the checks of lines 47-51 pass: the three
    views and the conversion loop on the first and the third. *)
Lemma pp_adatas_checked_run adata_1 adata_2 genes st :
  let g := marker_genes adata_1 adata_2 genes in
  let v1 := subset_genes adata_1 adata_2 genes adata_1 in
  let v2 := subset_genes adata_1 adata_2 genes adata_2 in
  length v2 = length v1 → NoDup v2 →
  ∃ idx st3 l1 l2 l3 o1 o3,
    Forall2 (λ x i, index_of x v2 = Some i) v1 idx ∧
    heap st ⊆ heap st3 ∧
    log st3 = log st ++ [shared_message adata_1 adata_2 genes] ∧
    heap st !! l1 = None ∧ heap st !! l3 = None ∧ l1 ≠ l3 ∧
    heap st3 !! l1 = Some o1 ∧ heap st3 !! l3 = Some o3 ∧
    o1 = obj_map_matrix (select_cols_mask (isin (var_index adata_1) g))
           (X_of st adata_1) ∧
    (∀ o2, heap st !! X adata_2 = Some o2 →
       o3 = obj_map_matrix (take_cols idx)
              (obj_map_matrix (select_cols_mask (isin (var_index adata_2) g)) o2)) ∧
    let view_1 := subset_view adata_1 l1 v1 (mask_positions adata_1 g) in
    let view_2 := subset_view adata_2 l2 v2 (mask_positions adata_2 g) in
    let view_3 := subset_view view_2 l3 v1 idx in
    pp_adatas adata_1 adata_2 genes st =
    (adata_1 ← cast_to_numpy view_1;
     adata_2 ← cast_to_numpy view_3;
     mret (adata_1, adata_2)) st3.
Proof.
  intros g v1 v2. unfold v1, v2. rewrite !subset_genes_filter. clear v1 v2.
  intros Hlen Hnd.
  destruct (pp_adatas_aligned_run adata_1 adata_2 genes st Hlen Hnd)
    as (idx & Hidx & Hrun).
  cbv zeta in Hrun. apply get_indexer_positions in Hidx. fold g in Hidx, Hrun.
  set (v1 := filter (λ x, x ∈ g) (var_index adata_1)) in *.
  set (st0 := {| heap := heap st; log := _ |}) in *.
  set (l1 := fresh (dom (heap st0))) in *.
  set (o1 := subset_obj st0 adata_1 g) in *.
  set (st1 := {| heap := <[l1 := o1]> (heap st0); log := log st0 |}) in *.
  set (l2 := fresh (dom (heap st1))) in *.
  set (o2' := subset_obj st1 adata_2 g) in *.
  set (st2 := {| heap := <[l2 := o2']> (heap st1); log := log st1 |}) in *.
  set (l3 := fresh (dom (heap st2))) in *.
  set (o3 := obj_map_matrix (take_cols idx) o2') in *.
  set (st3 := {| heap := <[l3 := o3]> (heap st2); log := log st2 |}) in *.
  exists idx, st3, l1, l2, l3, o1, o3.
  assert (heap st ⊆ heap st1) as H01 by apply insert_fresh_subseteq.
  assert (heap st1 ⊆ heap st2) as H12 by apply insert_fresh_subseteq.
  assert (heap st2 ⊆ heap st3) as H23 by apply insert_fresh_subseteq.
  assert (heap st1 !! l1 = Some o1) as H11 by apply lookup_insert_eq.
  assert (heap st3 !! l3 = Some o3) as H33 by apply lookup_insert_eq.
  assert (heap st !! l1 = None) as H1 by apply fresh_heap_None.
  assert (heap st2 !! l3 = None) as H3 by apply fresh_heap_None.
  split; [done|]. split; [by etrans; [|etrans]|]. split; [done|].
  split; [done|].
  split; [exact (lookup_weaken_None _ _ _ H3 (transitivity H01 H12))|].
  split.
  { intros Heq. rewrite <- Heq in H3.
    rewrite (lookup_weaken _ _ _ _ H11 H12) in H3. discriminate H3. }
  split; [exact (lookup_weaken _ _ _ _ H11 (transitivity H12 H23))|].
  split; [done|]. split; [done|]. split; [|exact Hrun].
  intros o2 Ho2. unfold o3, o2', subset_obj. do 2 f_equal.
  apply X_of_lookup. by apply insert_fresh_lookup.
Qed.

(** The outcome of [pp_adatas] once the checks of lines 47-51 pass. *)
Lemma pp_adatas_checked_outcome adata_1 adata_2 genes st r st' :
  let g := marker_genes adata_1 adata_2 genes in
  let v1 := subset_genes adata_1 adata_2 genes adata_1 in
  let v2 := subset_genes adata_1 adata_2 genes adata_2 in
  length v2 = length v1 → NoDup v2 →
  pp_adatas adata_1 adata_2 genes st = (r, st') →
  ∃ idx o1 o3,
    o1 = obj_map_matrix (select_cols_mask (isin (var_index adata_1) g))
           (X_of st adata_1) ∧
    (∀ o2, heap st !! X adata_2 = Some o2 →
       o3 = obj_map_matrix (take_cols idx)
              (obj_map_matrix (select_cols_mask (isin (var_index adata_2) g)) o2)) ∧
    log st' = log st ++ [shared_message adata_1 adata_2 genes] ∧
    match r with
    | Ok (r1, r2) =>
        (∃ a, toarray o1 = Ok a) ∧ (∃ a, toarray o3 = Ok a) ∧
        var_index r1 = v1 ∧ var_index r2 = v1 ∧
        obs_index r1 = obs_index adata_1 ∧ obs_index r2 = obs_index adata_2 ∧
        is_Some (heap st' !! X r1) ∧ is_Some (heap st' !! X r2)
    | Raise e =>
        e = AttributeError ∧
        (toarray o1 = Raise AttributeError ∨ toarray o3 = Raise AttributeError)
    end.
Proof.
  intros g v1 v2 Hlen Hnd Hrun.
  destruct (pp_adatas_checked_run adata_1 adata_2 genes st Hlen Hnd)
    as (idx & st3 & l1 & l2 & l3 & o1 & o3 & _ & _ & Hlog & _ & _ & _ &
        Hl1 & Hl3 & Ho1 & Ho3 & Hrun').
  cbv zeta in Hrun'. rewrite Hrun' in Hrun. clear Hrun'.
  exists idx, o1, o3. split; [done|]. split; [done|].
  rewrite bind_run in Hrun.
  destruct (cast_to_numpy _ st3) as [[r1|e1] st4] eqn:E1;
    (eapply cast_to_numpy_outcome in E1; [|exact Hl1]).
  2: { injection Hrun as <- <-. destruct E1 as (Hlog4 & _ & -> & Hr).
       split; [congruence|]. auto. }
  destruct E1 as (Hlog4 & Hs34 & Ha1 & Hv1 & Hobs1 & HX1).
  destruct (Hs34 _ _ Hl3) as [f Hl3'].
  rewrite bind_run in Hrun.
  destruct (cast_to_numpy _ st4) as [[r2|e2] st5] eqn:E2;
    (eapply cast_to_numpy_outcome in E2; [|exact Hl3']).
  2: { injection Hrun as <- <-. destruct E2 as (Hlog5 & _ & -> & Hr).
       split; [congruence|]. split; [done|]. right.
       rewrite toarray_map in Hr. by destruct (toarray o3). }
  destruct E2 as (Hlog5 & Hs45 & [a3 Ha3] & Hv3 & Hobs3 & HX3).
  injection Hrun as <- <-. split; [congruence|].
  split; [done|]. split.
  { rewrite toarray_map in Ha3. destruct (toarray o3); [by eexists|done]. }
  do 4 (split; [done|]).
  split; [by eapply same_storage_is_Some|done].
Qed.

Lemma obj_matrix_map (f : matrix F → matrix F) o :
  obj_matrix (obj_map_matrix f o) = f <$> obj_matrix o.
Proof. by destruct o. Qed.

Lemma toarray_obj_matrix o a : toarray o = Ok a → obj_matrix o = Some a.
Proof. destruct o; intros [= <-]; done. Qed.


(** *** Writing back what a view reads *)

Lemma mask_select_elem_of {A} (mask : list bool) (l : list A) k y :
  mask_select mask l !! k = Some y → y ∈ l.
Proof.
  revert l k. induction mask as [|b mask IH]; intros [|x l] k; try done.
  cbn. destruct b.
  - destruct k as [|k]; cbn; [intros [= <-]; by left|].
    intros Hk. right. by eapply IH.
  - intros Hk. right. by eapply IH.
Qed.

Lemma mask_select_seq_ge (mask : list bool) n0 n k j :
  mask_select mask (seq n0 n) !! k = Some j → n0 ≤ j.
Proof.
  intros Hk. apply mask_select_elem_of in Hk. apply elem_of_seq in Hk. lia.
Qed.

(** The element selected at position [k] is the element of the row at the
    column selected at position [k]. *)
Lemma mask_select_position (mask : list bool) (r : list F) n0 k j x :
  mask_select mask (seq n0 (length mask)) !! k = Some j →
  mask_select mask r !! k = Some x →
  r !! (j - n0) = Some x.
Proof.
  revert r n0 k. induction mask as [|b mask IH]; intros r n0 k; [done|].
  destruct r as [|e r]; [done|].
  cbn [length seq mask_select]. destruct b.
  - destruct k as [|k].
    + intros [= <-] [= <-]. by rewrite Nat.sub_diag.
    + intros Hj Hx. change ((n0 :: mask_select mask (seq (S n0) (length mask))) !! S k)
        with (mask_select mask (seq (S n0) (length mask)) !! k) in Hj.
      pose proof (mask_select_seq_ge _ _ _ _ _ Hj) as Hge.
      replace (j - n0) with (S (j - S n0)) by lia. cbn. by eapply IH.
  - intros Hj Hx.
    pose proof (mask_select_seq_ge _ _ _ _ _ Hj) as Hge.
    replace (j - n0) with (S (j - S n0)) by lia. cbn. by eapply IH.
Qed.

(** A position beyond the elements selected in a row is a column beyond the
    row. *)
Lemma mask_select_beyond (mask : list bool) (r : list F) n0 k j :
  mask_select mask (seq n0 (length mask)) !! k = Some j →
  length (mask_select mask r) ≤ k →
  length r ≤ j - n0.
Proof.
  revert r n0 k. induction mask as [|b mask IH]; intros r n0 k; [done|].
  destruct r as [|e r]; [cbn; lia|].
  cbn [length seq mask_select]. destruct b.
  - destruct k as [|k]; cbn [length]; [lia|].
    intros Hj Hk. change ((n0 :: mask_select mask (seq (S n0) (length mask))) !! S k)
        with (mask_select mask (seq (S n0) (length mask)) !! k) in Hj.
    pose proof (mask_select_seq_ge _ _ _ _ _ Hj) as Hge.
    assert (length r ≤ j - S n0) by (eapply IH; [done|lia]). lia.
  - intros Hj Hk.
    pose proof (mask_select_seq_ge _ _ _ _ _ Hj) as Hge.
    assert (length r ≤ j - S n0) by (eapply IH; [done|lia]). lia.
Qed.

(** Writing in a row the elements it holds, or beyond it, leaves the row as
    it is. *)
Lemma put_row_id (idx : list nat) (r v : list F) :
  (∀ k j x, idx !! k = Some j → v !! k = Some x →
            r !! j = Some x ∨ length r ≤ j) →
  put_row idx r v = r.
Proof.
  unfold put_row. revert v. induction idx as [|j idx IH]; intros [|x v] H; try done.
  cbn. assert (<[j := x]> r = r) as ->.
  { destruct (H 0 j x eq_refl eq_refl) as [Hj|Hj].
    - by apply list_insert_id.
    - by apply list_insert_ge. }
  apply IH. intros k j' x' Hk Hv. exact (H (S k) j' x' Hk Hv).
Qed.

Lemma put_cols_id (idx : list nat) (f : list F → list F) (value m : matrix F) :
  rows value = map f (rows m) →
  (∀ r, r ∈ rows m → put_row idx r (f r) = r) →
  put_cols idx value m = m.
Proof.
  destruct m as [c rs]. unfold put_cols. cbn. intros -> Hf.
  rewrite length_map, drop_all, app_nil_r. f_equal.
  induction rs as [|r rs IH]; [done|]. cbn. f_equal.
  - apply Hf. by left.
  - apply IH. intros r' Hr'. apply Hf. by right.
Qed.

(** The columns a mask selects, written back at the positions of the mask. *)
Lemma put_cols_select (mask : list bool) (m : matrix F) :
  put_cols (mask_select mask (seq 0 (length mask))) (select_cols_mask mask m) m = m.
Proof.
  apply (put_cols_id _ (mask_select mask)); [done|].
  intros r _. apply put_row_id. intros k j x Hj Hx. left.
  rewrite <- (Nat.sub_0_r j). by eapply mask_select_position.
Qed.

(** The same for columns selected by a mask and then taken by position. *)
Lemma put_cols_take_select (mask : list bool) (idx : list nat) (m : matrix F) :
  Forall (λ i, i < length (mask_select mask (seq 0 (length mask)))) idx →
  put_cols ((λ i, nth i (mask_select mask (seq 0 (length mask))) 0) <$> idx)
    (take_cols idx (select_cols_mask mask m)) m = m.
Proof.
  intros Hidx.
  apply (put_cols_id _ (λ r, map (λ i, nth i (mask_select mask r) f_zero) idx)).
  { cbn. by rewrite map_map. }
  intros r _. apply put_row_id. intros k j x Hj Hx.
  rewrite list_lookup_fmap in Hj. rewrite lookup_map in Hx.
  destruct (idx !! k) as [i|] eqn:Hi; [|done]. cbn in Hj, Hx.
  injection Hj as <-. injection Hx as <-.
  pose proof (proj1 (Forall_lookup _ _) Hidx k i Hi) as Hlt. cbn in Hlt.
  destruct (lookup_lt_is_Some_2 _ _ Hlt) as [j Hj].
  rewrite (nth_lookup_Some _ _ _ _ Hj).
  destruct (decide (i < length (mask_select mask r))) as [Hir|Hir].
  - left. destruct (lookup_lt_is_Some_2 _ _ Hir) as [x Hx].
    rewrite (nth_lookup_Some _ _ _ _ Hx).
    rewrite <- (Nat.sub_0_r j). by eapply mask_select_position.
  - right. rewrite <- (Nat.sub_0_r j). eapply mask_select_beyond; [done|lia].
Qed.

Lemma length_mask_select_seq {A} (mask : list bool) (l : list A) n0 :
  length l = length mask →
  length (mask_select mask (seq n0 (length mask))) = length (mask_select mask l).
Proof.
  revert l n0. induction mask as [|b mask IH]; intros [|x l] n0 Hlen; try done.
  cbn. injection Hlen as Hlen. destruct b; cbn; by rewrite (IH l).
Qed.

(** The conversion of a view whose parent holds, at the columns of the
    view, what the view reads: the state is as before. *)
Lemma cast_to_numpy_view_id adata st p idx o a op ap :
  adata_ref adata = Some (p, idx) →
  heap st !! X adata = Some o → toarray o = Ok a →
  heap st !! p = Some op → toarray op = Ok ap →
  put_cols idx a ap = ap →
  cast_to_numpy adata st = (Ok adata, st).
Proof.
  intros Href Ho Ha Hp Hap Hid.
  rewrite (cast_to_numpy_view _ _ _ _ _ _ Href Ho Ha). f_equal.
  destruct st as [h lg]. cbn in *. f_equal.
  assert (alter (obj_map_matrix (put_cols idx a)) p h = h) as ->.
  { apply alter_id. intros op' Hp'. assert (op' = op) as -> by congruence.
    destruct op; try done; injection Hap as ->; cbn; by rewrite Hid. }
  apply alter_id. intros o' Ho'. assert (o' = o) as -> by congruence.
  by apply obj_map_matrix_toarray.
Qed.

Lemma mask_positions_length adata (g : list string) :
  mask_positions adata g =
  mask_select (isin (var_index adata) g)
    (seq 0 (length (isin (var_index adata) g))).
Proof. unfold mask_positions, n_vars, isin. by rewrite length_map. Qed.

Lemma length_mask_positions adata_1 adata_2 genes adata :
  length (mask_positions adata (marker_genes adata_1 adata_2 genes)) =
  length (subset_genes adata_1 adata_2 genes adata).
Proof.
  rewrite mask_positions_length. unfold subset_genes.
  apply length_mask_select_seq. unfold isin. by rewrite length_map.
Qed.

(** The run of [pp_adatas] on two datasets that own a sparse [X], once the
    checks of lines 47-51 pass: the views returned, and what their [X]
    reads as.  The conversion loop writes into each dataset the values it
    holds: the objects that existed before are as they were. *)
Lemma pp_adatas_views_run adata_1 adata_2 genes st o1 o2 a1 a2 :
  heap st !! X adata_1 = Some o1 → heap st !! X adata_2 = Some o2 →
  adata_ref adata_1 = None → adata_ref adata_2 = None →
  toarray o1 = Ok a1 → toarray o2 = Ok a2 →
  let g := marker_genes adata_1 adata_2 genes in
  let v1 := subset_genes adata_1 adata_2 genes adata_1 in
  let v2 := subset_genes adata_1 adata_2 genes adata_2 in
  length v2 = length v1 → NoDup v2 →
  ∃ idx r1 r2 st',
    Forall2 (λ x i, index_of x v2 = Some i) v1 idx ∧
    pp_adatas adata_1 adata_2 genes st = (Ok (r1, r2), st') ∧
    var_index r1 = v1 ∧ var_index r2 = v1 ∧
    obs_index r1 = obs_index adata_1 ∧ obs_index r2 = obs_index adata_2 ∧
    adata_ref r1 = Some (X adata_1, mask_positions adata_1 g) ∧
    adata_ref r2 =
      Some (X adata_2, (λ j, nth j (mask_positions adata_2 g) 0) <$> idx) ∧
    heap st !! X r1 = None ∧ heap st !! X r2 = None ∧
    heap st' !! X r1 =
      Some (obj_map_matrix (select_cols_mask (isin (var_index adata_1) g)) o1) ∧
    heap st' !! X r2 =
      Some (obj_map_matrix (take_cols idx)
              (obj_map_matrix (select_cols_mask (isin (var_index adata_2) g)) o2)) ∧
    log st' = log st ++ [shared_message adata_1 adata_2 genes] ∧
    heap st ⊆ heap st'.
Proof.
  intros Ho1 Ho2 Hown1 Hown2 Ha1 Ha2 g v1 v2 Hlen Hnd.
  destruct (pp_adatas_checked_run adata_1 adata_2 genes st Hlen Hnd)
    as (idx & st3 & l1 & l2 & l3 & o1' & o3 & Hidx & Hsub & Hlog & Hf1 & Hf3 & Hne &
        Hl1 & Hl3 & Ho1' & Ho3 & Hrun).
  cbv zeta in Hrun. fold g v1 v2 in Hrun, Hidx.
  rewrite (X_of_lookup _ _ _ Ho1) in Ho1'. specialize (Ho3 o2 Ho2).
  set (view_1 := subset_view adata_1 l1 v1 (mask_positions adata_1 g)) in *.
  set (view_2 := subset_view adata_2 l2 v2 (mask_positions adata_2 g)) in *.
  set (view_3 := subset_view view_2 l3 v1 idx) in *.
  assert (adata_ref view_1 = Some (X adata_1, mask_positions adata_1 g)) as Href1.
  { cbn. unfold view_ref. by rewrite Hown1. }
  assert (adata_ref view_3 =
          Some (X adata_2, (λ j, nth j (mask_positions adata_2 g) 0) <$> idx)) as Href3.
  { cbn. unfold view_ref at 1. cbn. unfold view_ref. by rewrite Hown2. }
  assert (toarray o1' = Ok (select_cols_mask (isin (var_index adata_1) g) a1)) as Ht1
    by (by rewrite Ho1', toarray_map, Ha1).
  assert (toarray o3 =
          Ok (take_cols idx (select_cols_mask (isin (var_index adata_2) g) a2))) as Ht3
    by (by rewrite Ho3, !toarray_map, Ha2).
  assert (Forall (λ i, i < length (mask_positions adata_2 g)) idx) as Hlt.
  { unfold g. rewrite length_mask_positions. fold v2.
    apply Forall_forall. intros i Hi.
    apply list_elem_of_lookup in Hi as [k Hk].
    destruct (Forall2_lookup_r _ _ _ _ _ Hidx Hk) as (x & _ & Hx).
    apply index_of_lookup in Hx. by eapply lookup_lt_Some. }
  rewrite bind_run in Hrun.
  rewrite (cast_to_numpy_view_id view_1 st3 _ _ _ _ o1 a1 Href1 Hl1 Ht1) in Hrun.
  2: { exact (lookup_weaken _ _ _ _ Ho1 Hsub). }
  2: { done. }
  2: { rewrite mask_positions_length. apply put_cols_select. }
  rewrite bind_run in Hrun.
  rewrite (cast_to_numpy_view_id view_3 st3 _ _ _ _ o2 a2 Href3 Hl3 Ht3) in Hrun.
  2: { exact (lookup_weaken _ _ _ _ Ho2 Hsub). }
  2: { done. }
  2: { rewrite mask_positions_length in Hlt |- *. by apply put_cols_take_select. }
  exists idx, view_1, view_3, st3.
  split; [done|]. split; [exact Hrun|].
  do 4 (split; [done|]). split; [done|]. split; [done|].
  split; [done|]. split; [done|].
  split; [rewrite Ho1' in Hl1; exact Hl1|].
  split; [rewrite Ho3 in Hl3; exact Hl3|].
  done.
Qed.


(** Property X3.  On two datasets that own a sparse [X] and have no
    repeated gene name, [pp_adatas] returns two datasets whose [X] reads as
    matrices with the rows of the inputs, in which every shared gene has
    kept its expression column: subsetting and reordering move the columns
    together with the gene names (lines 42-50). *)
Theorem pp_adatas_keeps_gene_columns adata_1 adata_2 genes st a1 a2 o1 o2 :
  heap st !! X adata_1 = Some o1 → heap st !! X adata_2 = Some o2 →
  adata_ref adata_1 = None → adata_ref adata_2 = None →
  toarray o1 = Ok a1 → toarray o2 = Ok a2 →
  NoDup (var_index adata_1) → NoDup (var_index adata_2) →
  ∃ r1 r2 st' o1' o2' m1 m2,
    pp_adatas adata_1 adata_2 genes st = (Ok (r1, r2), st') ∧
    heap st' !! X r1 = Some o1' ∧ obj_matrix o1' = Some m1 ∧
    heap st' !! X r2 = Some o2' ∧ obj_matrix o2' = Some m2 ∧
    nrows m1 = nrows a1 ∧ nrows m2 = nrows a2 ∧
    ∀ g, g ∈ var_index r1 →
      gene_col (var_index r1) m1 g = gene_col (var_index adata_1) a1 g ∧
      gene_col (var_index r2) m2 g = gene_col (var_index adata_2) a2 g.
Proof.
  intros Ho1 Ho2 Hown1 Hown2 Ha1 Ha2 Hnd1 Hnd2.
  assert (length (subset_genes adata_1 adata_2 genes adata_2) =
          length (subset_genes adata_1 adata_2 genes adata_1)) as Hlen.
  { rewrite !subset_genes_filter. by apply subsets_same_length. }
  assert (NoDup (subset_genes adata_1 adata_2 genes adata_2)) as Hnd.
  { rewrite subset_genes_filter. by apply NoDup_filter. }
  destruct (pp_adatas_views_run adata_1 adata_2 genes st o1 o2 a1 a2
              Ho1 Ho2 Hown1 Hown2 Ha1 Ha2 Hlen Hnd)
    as (idx & r1 & r2 & st' & Hidx & Hrun & Hv1 & Hv2 & _ & _ & _ & _ & _ & _ &
        HX1 & HX2 & _).
  rewrite (subset_genes_filter _ _ _ adata_1) in Hidx, Hv1, Hv2.
  rewrite (subset_genes_filter _ _ _ adata_2) in Hidx.
  apply toarray_obj_matrix in Ha1, Ha2.
  eexists r1, r2, st', _, _, _, _. split; [done|].
  split; [exact HX1|]. split; [by rewrite obj_matrix_map, Ha1|].
  split; [exact HX2|]. split; [by rewrite !obj_matrix_map, Ha2|].
  split; [unfold nrows, select_cols_mask; cbn; by rewrite length_map|].
  split; [unfold nrows, take_cols, select_cols_mask; cbn; by rewrite !length_map|].
  rewrite Hv1, Hv2.
  intros x Hx. apply list_elem_of_filter in Hx as Hx'. destruct Hx' as [Hxm Hx1].
  split.
  - by apply gene_col_select.
  - rewrite (gene_col_take_cols _ _ _ _ _ Hidx Hx).
    apply gene_col_select; [|done].
    by apply elem_of_marker_genes in Hxm as (_ & _ & ?).
Qed.

(** *** Outcomes of [pp_adatas] *)

Lemma subset_genes_perm adata_1 adata_2 genes :
  NoDup (subset_genes adata_1 adata_2 genes adata_2) →
  length (subset_genes adata_1 adata_2 genes adata_2) =
  length (subset_genes adata_1 adata_2 genes adata_1) →
  NoDup (subset_genes adata_1 adata_2 genes adata_1) ∧
  subset_genes adata_1 adata_2 genes adata_1 ≡ₚ subset_genes adata_1 adata_2 genes adata_2.
Proof.
  intros Hnd Hlen.
  assert (NoDup (subset_genes adata_1 adata_2 genes adata_1)) as Hnd1.
  { apply (NoDup_same_length _ _ Hnd); [|done].
    intros x. rewrite subset_genes_2. by rewrite elem_of_subset_genes_1. }
  split; [done|]. apply NoDup_Permutation; [done..|].
  intros x. by rewrite subset_genes_2, elem_of_subset_genes_1.
Qed.

(** The outcome of [pp_adatas], whatever the gene axes. *)
Lemma pp_adatas_outcome adata_1 adata_2 genes st r st' :
  let v1 := subset_genes adata_1 adata_2 genes adata_1 in
  let v2 := subset_genes adata_1 adata_2 genes adata_2 in
  pp_adatas adata_1 adata_2 genes st = (r, st') →
  log st' = log st ++ [shared_message adata_1 adata_2 genes] ∧
  ((r = Raise AssertionError ∧ length v2 ≠ length v1) ∨
   (r = Raise InvalidIndexError ∧ length v2 = length v1 ∧ ¬ NoDup v2) ∨
   (length v2 = length v1 ∧ NoDup v2 ∧ NoDup v1 ∧ v1 ≡ₚ v2 ∧
    ∃ idx o1 o3,
      o1 = obj_map_matrix
             (select_cols_mask (isin (var_index adata_1)
                                  (marker_genes adata_1 adata_2 genes)))
             (X_of st adata_1) ∧
      (∀ o2, heap st !! X adata_2 = Some o2 →
         o3 = obj_map_matrix (take_cols idx)
                (obj_map_matrix
                   (select_cols_mask (isin (var_index adata_2)
                                        (marker_genes adata_1 adata_2 genes))) o2)) ∧
      match r with
      | Ok (r1, r2) =>
          (∃ a, toarray o1 = Ok a) ∧ (∃ a, toarray o3 = Ok a) ∧
          var_index r1 = v1 ∧ var_index r2 = v1 ∧
          obs_index r1 = obs_index adata_1 ∧ obs_index r2 = obs_index adata_2 ∧
          is_Some (heap st' !! X r1) ∧ is_Some (heap st' !! X r2)
      | Raise e =>
          e = AttributeError ∧
          (toarray o1 = Raise AttributeError ∨ toarray o3 = Raise AttributeError)
      end)).
Proof.
  intros v1 v2 Hrun.
  destruct (decide (length v2 = length v1)) as [Hlen|Hlen]; last first.
  { destruct (pp_adatas_mismatch_run _ _ _ st Hlen) as (st'' & Hrun' & Hlog & _).
    rewrite Hrun' in Hrun. injection Hrun as <- <-. split; [done|]. by left. }
  destruct (decide (NoDup v2)) as [Hnd|Hnd]; last first.
  { destruct (pp_adatas_repeated_run _ _ _ st Hlen Hnd) as (st'' & Hrun' & Hlog & _).
    rewrite Hrun' in Hrun. injection Hrun as <- <-. split; [done|]. right; left. done. }
  destruct (subset_genes_perm _ _ _ Hnd Hlen) as [Hnd1 Hperm].
  destruct (pp_adatas_checked_outcome _ _ _ _ _ _ Hlen Hnd Hrun)
    as (idx & o1 & o3 & Ho1 & Ho3 & Hlog & Hr).
  split; [done|]. right; right. do 4 (split; [done|]).
  by exists idx, o1, o3.
Qed.

(** What every returning call of [pp_adatas] establishes. *)
Lemma pp_adatas_ok_post adata_1 adata_2 genes st r1 r2 st' :
  pp_adatas adata_1 adata_2 genes st = (Ok (r1, r2), st') →
  var_index r1 = subset_genes adata_1 adata_2 genes adata_1 ∧
  var_index r2 = var_index r1 ∧
  obs_index r1 = obs_index adata_1 ∧ obs_index r2 = obs_index adata_2 ∧
  NoDup (var_index r1) ∧
  var_index r1 ≡ₚ marker_genes adata_1 adata_2 genes ∧
  is_Some (heap st' !! X r1) ∧ is_Some (heap st' !! X r2).
Proof.
  intros Hrun.
  destruct (pp_adatas_outcome _ _ _ _ _ _ Hrun)
    as [_ [[? _]|[[? _]|(Hlen & Hnd & Hnd1 & Hperm & idx & o1 & o3 & _ & _ & Hr)]]];
    [done..|].
  destruct Hr as (_ & _ & Hv1 & Hv2 & Hobs1 & Hobs2 & HX1 & HX2).
  rewrite subset_genes_2 in Hperm.
  rewrite Hv1, Hv2. done.
Qed.

(** Claim C5, amended.  When the gene axes of the two datasets subset to
    the shared genes (lines 43-46) differ in length, [pp_adatas] raises
    [AssertionError], the exception of the check of line 47, and nothing
    handles it before the caller.  When they have the same length, no
    [AssertionError] is raised, whatever their order: the reordering of line
    50 raises [InvalidIndexError] when a gene is repeated in the second
    axis, and otherwise the axes hold the same genes, possibly in another
    order, the second dataset is put in the order of the first, so that the
    check of line 51 passes, and the call returns both datasets with the
    gene axis of the first or fails in the conversion loop. *)
Theorem pp_adatas_alignment_check adata_1 adata_2 genes st :
  let v1 := subset_genes adata_1 adata_2 genes adata_1 in
  let v2 := subset_genes adata_1 adata_2 genes adata_2 in
  let r := (pp_adatas adata_1 adata_2 genes st).1 in
  (length v2 ≠ length v1 → r = Raise AssertionError) ∧
  (length v2 = length v1 →
     r ≠ Raise AssertionError ∧
     (¬ NoDup v2 → r = Raise InvalidIndexError) ∧
     (NoDup v2 →
        v1 ≡ₚ v2 ∧
        match r with
        | Ok (r1, r2) => var_index r1 = v1 ∧ var_index r2 = v1
        | Raise e => e = AttributeError
        end)).
Proof.
  intros v1 v2 r.
  destruct (pp_adatas adata_1 adata_2 genes st) as [r' st'] eqn:Hrun.
  subst r. cbn [fst].
  destruct (pp_adatas_outcome _ _ _ _ _ _ Hrun)
    as [_ [[-> Hlen]|[(-> & Hlen & Hnd)|(Hlen & Hnd & Hnd1 & Hperm & idx & o1 & o3 &
                                         _ & _ & Hr)]]];
    fold v1 v2 in Hlen.
  - split; [done|]. intros Hlen'. by destruct Hlen.
  - fold v2 in Hnd. split; [by intros Hlen'|]. intros _.
    split; [done|]. split; [done|]. by intros Hnd'.
  - fold v1 in Hnd1. fold v2 in Hnd. fold v1 v2 in Hperm.
    split; [by intros Hlen'|]. intros _.
    assert (match r' with
            | Ok (r1, r2) => var_index r1 = v1 ∧ var_index r2 = v1
            | Raise e => e = AttributeError
            end) as Hr'.
    { destruct r' as [[r1 r2]|e]; [|by destruct Hr].
      by destruct Hr as (_ & _ & ? & ? & _). }
    split; [|split; [by intros Hnd'|done]].
    intros ->. discriminate Hr'.
Qed.

Lemma marker_genes_ext adata_1 adata_2 (genes genes' : list string) :
  (∀ g, g ∈ var_index adata_1 → g ∈ var_index adata_2 → (g ∈ genes ↔ g ∈ genes')) →
  marker_genes adata_1 adata_2 (Some genes) = marker_genes adata_1 adata_2 (Some genes').
Proof.
  intros H. rewrite !marker_genes_filter. apply filter_ext_in.
  intros g Hg. cbn. split; intros [Hc H1]; (split; [|done]); by apply (H g).
Qed.

Lemma mask_select_isin_nil {A} (index : list string) (l : list A) :
  mask_select (isin index []) l = [].
Proof.
  revert l. induction index as [|g index IH]; intros [|x l]; try done.
  cbn. apply IH.
Qed.

(** Property X4.  The candidate list [genes] counts only as a set, and only
    through the names both datasets have: two lists that hold the same names
    among the genes common to the two datasets give the same call, whatever
    their order, their repetitions and the unknown names they hold (lines
    33-39 use the list through [isin] only). *)
Theorem pp_adatas_genes_as_set adata_1 adata_2 (genes genes' : list string) :
  (∀ g, g ∈ var_index adata_1 → g ∈ var_index adata_2 → (g ∈ genes ↔ g ∈ genes')) →
  pp_adatas adata_1 adata_2 (Some genes) = pp_adatas adata_1 adata_2 (Some genes').
Proof.
  intros H. unfold pp_adatas. by rewrite (marker_genes_ext _ _ _ _ H).
Qed.

(** Property X5.  Whenever [pp_adatas] returns, no gene name is repeated in
    the gene axis of the datasets it returns, and that axis holds the marker
    genes of line 39: with a repeated shared name the check of line 47 fails
    or the reordering of line 50 is refused by pandas, which reindexes only
    on an index without repeated labels. *)
Theorem pp_adatas_returns_unique_genes adata_1 adata_2 genes st r1 r2 st' :
  pp_adatas adata_1 adata_2 genes st = (Ok (r1, r2), st') →
  NoDup (var_index r1) ∧ NoDup (var_index r2) ∧
  var_index r1 ≡ₚ marker_genes adata_1 adata_2 genes.
Proof.
  intros Hrun.
  destruct (pp_adatas_ok_post _ _ _ _ _ _ _ Hrun) as (_ & H21 & _ & _ & Hnd & Hperm & _).
  by rewrite H21.
Qed.


(** Property X7.  Every call of [pp_adatas], whatever its outcome, adds one
    entry to the log: the message of line 40 with the number of marker
    genes.  When the call returns, that number is the number of genes of
    each dataset returned. *)
Theorem pp_adatas_logs_gene_count adata_1 adata_2 genes st r st' :
  pp_adatas adata_1 adata_2 genes st = (r, st') →
  log st' = log st ++
    [(INFO, pretty (length (marker_genes adata_1 adata_2 genes)) +:+
            " marker genes shared by AnnDatas.")] ∧
  ∀ r1 r2, r = Ok (r1, r2) →
    length (marker_genes adata_1 adata_2 genes) = n_vars r1 ∧
    length (marker_genes adata_1 adata_2 genes) = n_vars r2.
Proof.
  intros Hrun.
  destruct (pp_adatas_outcome _ _ _ _ _ _ Hrun) as [Hlog Hr].
  split; [done|]. intros r1 r2 ->.
  destruct Hr as [[? _]|[[? _]|(Hlen & _ & _ & _ & idx & o1 & o3 & _ & _ & Hr)]];
    [done..|].
  destruct Hr as (_ & _ & Hv1 & Hv2 & _). unfold n_vars.
  by rewrite Hv1, Hv2, <- Hlen, subset_genes_2.
Qed.

(** Property X8.  When no candidate gene is shared by the two datasets,
    [pp_adatas] on two datasets that own a sparse [X] raises nothing: it
    logs that 0 marker genes are shared and returns two datasets without
    genes, with the observations of the inputs, whose [X] reads as a matrix
    with the rows of the input and no column. *)
Theorem pp_adatas_no_shared_genes adata_1 adata_2 genes st o1 o2 a1 a2 :
  heap st !! X adata_1 = Some o1 → heap st !! X adata_2 = Some o2 →
  adata_ref adata_1 = None → adata_ref adata_2 = None →
  toarray o1 = Ok a1 → toarray o2 = Ok a2 →
  (∀ g, g ∈ default (var_index adata_1) genes → g ∈ var_index adata_1 →
        g ∉ var_index adata_2) →
  ∃ r1 r2 st' o1' o2' m1 m2,
    pp_adatas adata_1 adata_2 genes st = (Ok (r1, r2), st') ∧
    var_index r1 = [] ∧ var_index r2 = [] ∧
    obs_index r1 = obs_index adata_1 ∧ obs_index r2 = obs_index adata_2 ∧
    heap st' !! X r1 = Some o1' ∧ obj_matrix o1' = Some m1 ∧
    heap st' !! X r2 = Some o2' ∧ obj_matrix o2' = Some m2 ∧
    shape m1 = (nrows a1, 0) ∧ shape m2 = (nrows a2, 0) ∧
    log st' = log st ++ [(INFO, "0 marker genes shared by AnnDatas.")].
Proof.
  intros Ho1 Ho2 Hown1 Hown2 Ha1 Ha2 Hnone.
  assert (marker_genes adata_1 adata_2 genes = []) as Hg.
  { apply elem_of_nil_inv. intros g Hg.
    apply elem_of_marker_genes in Hg as (Hc & Hg1 & Hg2). by apply (Hnone g). }
  assert (∀ adata, subset_genes adata_1 adata_2 genes adata = []) as Hv.
  { intros adata. unfold subset_genes. rewrite Hg. apply mask_select_isin_nil. }
  destruct (pp_adatas_views_run adata_1 adata_2 genes st o1 o2 a1 a2
              Ho1 Ho2 Hown1 Hown2 Ha1 Ha2)
    as (idx & r1 & r2 & st' & Hidx & Hrun & Hv1 & Hv2 & Hobs1 & Hobs2 & _ & _ & _ & _ &
        HX1 & HX2 & Hlog & _).
  { by rewrite !Hv. }
  { rewrite Hv. constructor. }
  rewrite Hv in Hv1, Hv2. rewrite (Hv adata_1) in Hidx.
  apply Forall2_nil_inv_l in Hidx as ->.
  rewrite Hg in HX1, HX2. apply toarray_obj_matrix in Ha1, Ha2.
  eexists r1, r2, st', _, _, _, _. split; [done|].
  do 4 (split; [done|]).
  split; [exact HX1|]. split; [by rewrite obj_matrix_map, Ha1|].
  split; [exact HX2|]. split; [by rewrite !obj_matrix_map, Ha2|].
  split.
  { unfold shape, nrows, select_cols_mask. cbn. by rewrite length_map, mask_select_isin_nil. }
  split.
  { unfold shape, nrows, take_cols, select_cols_mask. cbn. by rewrite !length_map. }
  rewrite Hlog. unfold shared_message. by rewrite Hg.
Qed.


(** Property X18.  [pp_adatas] leaves its inputs as they were.  On two
    datasets that own their [X], when the call returns, every object that
    existed before the call is unchanged, the expression matrices of the
    two datasets among them: the assignment of line 56 to a view writes
    into the dataset viewed, at the columns of the view, the values it
    holds there. *)
Theorem pp_adatas_leaves_inputs adata_1 adata_2 genes st o1 o2 r1 r2 st' :
  heap st !! X adata_1 = Some o1 → heap st !! X adata_2 = Some o2 →
  adata_ref adata_1 = None → adata_ref adata_2 = None →
  pp_adatas adata_1 adata_2 genes st = (Ok (r1, r2), st') →
  heap st ⊆ heap st' ∧
  heap st' !! X adata_1 = Some o1 ∧ heap st' !! X adata_2 = Some o2 ∧
  adata_ref r1 = Some (X adata_1, mask_positions adata_1 (marker_genes adata_1 adata_2 genes)) ∧
  (∃ idx, adata_ref r2 = Some (X adata_2, idx)).
Proof.
  intros Ho1 Ho2 Hown1 Hown2 Hrun.
  destruct (pp_adatas_outcome _ _ _ _ _ _ Hrun)
    as [_ [[? _]|[[? _]|(Hlen & Hnd & _ & _ & idx & o1' & o3 & Ho1' & Ho3 & Hr)]]];
    [done..|].
  destruct Hr as ([b1 Hb1] & [b3 Hb3] & _).
  rewrite Ho1', (X_of_lookup _ _ _ Ho1), toarray_map in Hb1.
  rewrite (Ho3 o2 Ho2), !toarray_map in Hb3.
  destruct (toarray o1) as [a1|] eqn:Ha1; [|done].
  destruct (toarray o2) as [a2|] eqn:Ha2; [|done].
  destruct (pp_adatas_views_run adata_1 adata_2 genes st o1 o2 a1 a2
              Ho1 Ho2 Hown1 Hown2 Ha1 Ha2 Hlen Hnd)
    as (idx' & r1' & r2' & st'' & _ & Hrun' & _ & _ & _ & _ & Hr1 & Hr2 & _ & _ & _ & _ &
        _ & Hsub).
  rewrite Hrun in Hrun'. injection Hrun' as <- <- <-.
  split; [done|].
  split; [exact (lookup_weaken _ _ _ _ Ho1 Hsub)|].
  split; [exact (lookup_weaken _ _ _ _ Ho2 Hsub)|].
  split; [done|]. by eexists.
Qed.

End Proofs.

(** ** Properties of [map_cells_to_space] *)

Section MappingProofs.
Context {F : Type} {FF : Float F}.
Implicit Types (st : state F) (adata : AnnData F) (o : pyobj F) (a : matrix F).

Context {Mapper : Type}.
Variable Mapper_init :
  matrix F → matrix F → list F → string → option (AnnData F) → hyperparameters →
  gmap loc (pyobj F) → result Mapper.
Variable Mapper_train : Mapper → F → Z → result (matrix F).
Variable torch_device : string → result string.

Local Abbreviation map_cells := (map_cells_to_space Mapper_init Mapper_train torch_device).

(** The run of [map_cells_to_space] on recognized inputs, step by step. *)
Lemma map_cells_run cells space mode adata_map device lr n st o_c o_s a_c a_s :
  heap st !! X cells = Some o_c → obj_matrix o_c = Some a_c →
  heap st !! X space = Some o_s → obj_matrix o_s = Some a_s →
  let S_ := fresh (dom (heap st)) in
  let h1 := <[S_ := ndarray float32 (astype_float32 a_c)]> (heap st) in
  let G_ := fresh (dom h1) in
  let st2 := {| heap := <[G_ := ndarray float32 (astype_float32 a_s)]> h1;
                log := log st ++ [(INFO, "Allocate tensors for mapping.")] |} in
  map_cells cells space mode adata_map device lr n st =
  match torch_device device with
  | Raise e => (Raise e, st2)
  | Ok dev =>
      if bool_decide (mode = "simple") then
        match Mapper_init (astype_float32 a_c) (astype_float32 a_s)
                (replicate (n_obs space) f_zero) dev adata_map
                {| lambda_d := 0; lambda_g1 := 1; lambda_g2 := 0; lambda_r := 0 |}
                (heap st2) with
        | Raise e => (Raise e, st2)
        | Ok mapper =>
            let st3 := {| heap := heap st2;
                          log := log st2 ++ [(INFO, "Begin training...")] |} in
            match Mapper_train mapper lr n with
            | Raise e => (Raise e, st3)
            | Ok mapping_matrix =>
                let st4 := {| heap := heap st3;
                              log := log st3 ++ [(INFO, "Saving results..")] |} in
                if bool_decide (shape mapping_matrix =
                                (length (obs_index cells), length (obs_index space)))
                then
                  let l := fresh (dom (heap st4)) in
                  let st5 := {| heap := <[l := ndarray float32 mapping_matrix]> (heap st4);
                                log := log st4 |} in
                  match train_genes_scores mapping_matrix (astype_float32 a_c)
                          (astype_float32 a_s) (var_index cells) with
                  | Raise e => (Raise e, st5)
                  | Ok df_cs =>
                      (Ok {| X := l;
                             obs_index := obs_index cells;
                             var_index := obs_index space;
                             uns := <["train_genes_scores" := df_cs]> ∅;
                             adata_ref := None |}, st5)
                  end
                else (Raise ValueError, st4)
            end
        end
      else (Raise NotImplementedError, st2)
  end.
Proof.
  intros Hc Hac Hs Has S_ h1 G_ st2.
  unfold map_cells_to_space.
  rewrite bind_run. cbn [logging_info].
  rewrite bind_run. unfold deref at 1. cbn [heap]. rewrite Hc. cbn [default].
  rewrite bind_run, (ingest_recognized _ _ _ Hac). cbn [heap log]. fold S_ h1.
  rewrite bind_run. unfold h1, S_. rewrite (deref_alloc_other _ _ _ _ _ Hs).
  fold S_ h1.
  rewrite bind_run, (ingest_recognized _ _ _ Has). cbn [heap log]. fold G_ st2.
  rewrite bind_run. unfold lift at 1.
  destruct (torch_device device) as [dev|e]; [|done].
  rewrite bind_run.
  destruct (bool_decide (mode = "simple")); [|done].
  cbn [mret M_ret].
  rewrite bind_run.
  assert (deref_ndarray S_ st2 = (Ok (astype_float32 a_c), st2)) as ->.
  { unfold deref_ndarray. rewrite bind_run. unfold deref, st2. cbn [heap].
    rewrite lookup_insert_ne by apply fresh_insert_ne.
    unfold h1. by rewrite lookup_insert_eq. }
  rewrite bind_run. unfold st2 at 1, G_ at 1 2. rewrite deref_ndarray_alloc.
  fold G_ st2.
  rewrite bind_run.
  destruct (Mapper_init _ _ _ _ _ _ _) as [mapper|e]; [|done].
  rewrite bind_run. cbn [logging_info].
  rewrite bind_run. unfold lift at 1.
  destruct (Mapper_train mapper lr n) as [mm|e]; [|done].
  rewrite bind_run. cbn [logging_info].
  rewrite bind_run. unfold sc_AnnData.
  destruct (bool_decide (shape mm = _)); [|done].
  rewrite bind_run. cbn [alloc]. cbn [mret M_ret heap log].
  rewrite bind_run. cbn [X]. rewrite deref_ndarray_alloc.
  rewrite bind_run. unfold lift.
  by destruct (train_genes_scores _ _ _ _).
Qed.


Lemma deref_run l o st : heap st !! l = Some o → deref l st = (Ok o, st).
Proof. intros Hl. unfold deref. by rewrite Hl. Qed.

Lemma map_cells_cells_unrecognized cells space mode adata_map device lr n st ty :
  heap st !! X cells = Some (other ty) →
  map_cells cells space mode adata_map device lr n st =
  (Raise NotImplementedError,
   {| heap := heap st;
      log := (log st ++ [(INFO, "Allocate tensors for mapping.")]) ++
             [(ERROR, "AnnData X has unrecognized type: " +:+ ty)] |}).
Proof.
  intros Hc. unfold map_cells_to_space.
  rewrite bind_run. cbn [logging_info].
  rewrite bind_run. erewrite deref_run by exact Hc.
  by rewrite bind_run, ingest_other.
Qed.

Lemma map_cells_space_unrecognized cells space mode adata_map device lr n st o_c a_c ty :
  heap st !! X cells = Some o_c → obj_matrix o_c = Some a_c →
  heap st !! X space = Some (other ty) →
  map_cells cells space mode adata_map device lr n st =
  (Raise NotImplementedError,
   {| heap := <[fresh (dom (heap st)) := ndarray float32 (astype_float32 a_c)]> (heap st);
      log := (log st ++ [(INFO, "Allocate tensors for mapping.")]) ++
             [(ERROR, "AnnData X has unrecognized type: " +:+ ty)] |}).
Proof.
  intros Hc Hac Hs. unfold map_cells_to_space.
  rewrite bind_run. cbn [logging_info].
  rewrite bind_run. erewrite deref_run by exact Hc.
  rewrite bind_run, (ingest_recognized _ _ _ Hac). cbn [heap log].
  rewrite bind_run, (deref_alloc_other _ _ _ _ _ Hs).
  by rewrite bind_run, ingest_other.
Qed.

(** Claim C4.  Ingestion of a matrix whose representation is not a numpy
    array, a CSR or a CSC matrix logs the type and raises
    [NotImplementedError]; [map_cells_to_space] stops there, for either
    dataset, without a second attempt and without reaching the Mapper (the
    final state records one log entry and, for the second dataset, only the
    array of the first).  Ingestion of a recognized representation returns a
    new float32 array of the same shape. *)
Theorem ingestion_unsupported_matrix_type :
  (∀ o st,
     match o with
     | other ty =>
         ingest o st =
         (Raise NotImplementedError,
          {| heap := heap st;
             log := log st ++ [(ERROR, "AnnData X has unrecognized type: " +:+ ty)] |})
     | ndarray _ a | csr_matrix _ a | csc_matrix _ a =>
         ∃ l, heap st !! l = None ∧
           ingest o st =
           (Ok l, {| heap := <[l := ndarray float32 (astype_float32 a)]> (heap st);
                     log := log st |}) ∧
           shape (astype_float32 a) = shape a
     end) ∧
  (∀ cells space mode adata_map device lr n st ty,
     heap st !! X cells = Some (other ty) →
     map_cells cells space mode adata_map device lr n st =
     (Raise NotImplementedError,
      {| heap := heap st;
         log := (log st ++ [(INFO, "Allocate tensors for mapping.")]) ++
                [(ERROR, "AnnData X has unrecognized type: " +:+ ty)] |})) ∧
  (∀ cells space mode adata_map device lr n st o_c a_c ty,
     heap st !! X cells = Some o_c → obj_matrix o_c = Some a_c →
     heap st !! X space = Some (other ty) →
     map_cells cells space mode adata_map device lr n st =
     (Raise NotImplementedError,
      {| heap := <[fresh (dom (heap st)) := ndarray float32 (astype_float32 a_c)]> (heap st);
         log := (log st ++ [(INFO, "Allocate tensors for mapping.")]) ++
                [(ERROR, "AnnData X has unrecognized type: " +:+ ty)] |})).
Proof.
  split; [|split].
  - intros o st.
    destruct o as [dt a|dt a|dt a|ty]; [| | |apply ingest_other];
      (exists (fresh (dom (heap st))); split; [apply fresh_heap_None|];
       split; [by apply ingest_recognized|apply shape_astype_float32]).
  - apply map_cells_cells_unrecognized.
  - apply map_cells_space_unrecognized.
Qed.

(** Claim C3, amended.  With an operating mode other than ["simple"],
    recognized matrices and a device string that [torch.device] accepts,
    [map_cells_to_space] raises [NotImplementedError] after both expression
    matrices have been converted to new dense float32 arrays, and before the
    Mapper is constructed and training starts: the final state, which does
    not depend on the Mapper, holds the two arrays and the log does not
    reach "Begin training...". *)
Theorem unsupported_mode_after_ingestion
    cells space mode adata_map device lr n st o_c o_s a_c a_s dev :
  mode ≠ "simple" →
  heap st !! X cells = Some o_c → obj_matrix o_c = Some a_c →
  heap st !! X space = Some o_s → obj_matrix o_s = Some a_s →
  torch_device device = Ok dev →
  let S_ := fresh (dom (heap st)) in
  let h1 := <[S_ := ndarray float32 (astype_float32 a_c)]> (heap st) in
  let G_ := fresh (dom h1) in
  heap st !! S_ = None ∧ h1 !! G_ = None ∧
  map_cells cells space mode adata_map device lr n st =
  (Raise NotImplementedError,
   {| heap := <[G_ := ndarray float32 (astype_float32 a_s)]> h1;
      log := log st ++ [(INFO, "Allocate tensors for mapping.")] |}).
Proof.
  intros Hmode Hc Hac Hs Has Hdev S_ h1 G_.
  split; [apply fresh_heap_None|]. split; [apply fresh_heap_None|].
  rewrite (map_cells_run _ _ _ _ _ _ _ _ _ _ _ _ Hc Hac Hs Has). cbv zeta.
  rewrite Hdev. by rewrite bool_decide_false.
Qed.

(** Claim C9.  Ingestion of a recognized matrix has one effect: a new
    float32 array at a location that was free; the log and every object of
    the heap are as before.  On recognized matrices, whatever the outcome of
    [map_cells_to_space], every object of the initial heap is unchanged, the
    expression matrices of the two datasets among them, and the float32
    arrays S and G are held at two new, distinct locations. *)
Theorem ingestion_leaves_inputs :
  (∀ o a st,
     obj_matrix o = Some a →
     ∃ l, heap st !! l = None ∧
       ingest o st =
       (Ok l, {| heap := <[l := ndarray float32 (astype_float32 a)]> (heap st);
                 log := log st |})) ∧
  (∀ cells space mode adata_map device lr n st o_c o_s a_c a_s r st',
     heap st !! X cells = Some o_c → obj_matrix o_c = Some a_c →
     heap st !! X space = Some o_s → obj_matrix o_s = Some a_s →
     map_cells cells space mode adata_map device lr n st = (r, st') →
     let S_ := fresh (dom (heap st)) in
     let G_ := fresh (dom (<[S_ := ndarray float32 (astype_float32 a_c)]> (heap st))) in
     heap st ⊆ heap st' ∧
     heap st' !! X cells = Some o_c ∧ heap st' !! X space = Some o_s ∧
     heap st !! S_ = None ∧ heap st !! G_ = None ∧ S_ ≠ G_ ∧
     heap st' !! S_ = Some (ndarray float32 (astype_float32 a_c)) ∧
     heap st' !! G_ = Some (ndarray float32 (astype_float32 a_s))).
Proof.
  split.
  { intros o a st Ha. exists (fresh (dom (heap st))).
    split; [apply fresh_heap_None|by apply ingest_recognized]. }
  intros cells space mode adata_map device lr n st o_c o_s a_c a_s r st'.
  intros Hc Hac Hs Has Hrun S_ G_.
  set (h1 := <[S_ := ndarray float32 (astype_float32 a_c)]> (heap st)) in *.
  set (h2 := <[G_ := ndarray float32 (astype_float32 a_s)]> h1).
  assert (heap st ⊆ h1) as H01 by apply insert_fresh_subseteq.
  assert (h1 ⊆ h2) as H12 by apply insert_fresh_subseteq.
  assert (h1 !! S_ = Some (ndarray float32 (astype_float32 a_c))) as HS1
    by apply lookup_insert_eq.
  assert (h2 !! G_ = Some (ndarray float32 (astype_float32 a_s))) as HG2
    by apply lookup_insert_eq.
  assert (heap st !! S_ = None) as HS0 by apply fresh_heap_None.
  assert (h1 !! G_ = None) as HG1 by apply fresh_heap_None.
  assert (h2 ⊆ heap st' ) as H2'.
  { rewrite (map_cells_run _ _ _ _ _ _ _ _ _ _ _ _ Hc Hac Hs Has) in Hrun.
    cbv zeta in Hrun. fold S_ h1 G_ h2 in Hrun.
    repeat match type of Hrun with
    | (match ?x with _ => _ end) = _ => destruct x
    | (if ?x then _ else _) = _ => destruct x
    end; injection Hrun as <- <-; cbn [heap]; try done.
    all: apply insert_fresh_subseteq. }
  assert (heap st ⊆ heap st') as H0' by (by etrans; [|etrans]).
  split; [done|].
  split; [exact (lookup_weaken _ _ _ _ Hc H0')|].
  split; [exact (lookup_weaken _ _ _ _ Hs H0')|].
  split; [done|].
  split; [exact (lookup_weaken_None _ _ _ HG1 H01)|].
  split; [intros Heq; rewrite <- Heq in HG1; congruence|].
  split; [exact (lookup_weaken _ _ _ _ (lookup_weaken _ _ _ _ HS1 H12) H2')|].
  exact (lookup_weaken _ _ _ _ HG2 H2').
Qed.


Lemma train_genes_scores_inv (map_X S_a G_a : matrix F) genes table :
  train_genes_scores map_X S_a G_a genes = Ok table →
  ∃ G_predicted cos_sims df,
    matmul (transpose map_X) S_a = Ok G_predicted ∧
    mapM (λ p, cos_sim p.1 p.2)
      (zip (rows (transpose G_a)) (rows (transpose G_predicted))) = Ok cos_sims ∧
    DataFrame cos_sims genes = Ok df ∧
    table = sort_values df.
Proof.
  unfold train_genes_scores. intros Hrun.
  destruct (matmul _ _) as [Gp|e] eqn:HGp; [|done]. cbn in Hrun.
  destruct (mapM _ _) as [cs|e] eqn:Hcs; [|done]. cbn in Hrun.
  destruct (DataFrame cs genes) as [df|e] eqn:Hdf; [|done]. cbn in Hrun.
  injection Hrun as <-. by exists Gp, cs, df.
Qed.

Lemma DataFrame_nonempty (data : list F) index df :
  DataFrame data index = Ok df → data ≠ [] →
  length data = length index ∧ df = zip index data.
Proof.
  destruct data as [|x data]; [intros _ Hne; by destruct Hne|]. unfold DataFrame.
  case_bool_decide as Hlen; [|intros [=]]. by intros [= <-] _.
Qed.

(** *** The scoring step, gene by gene *)

Lemma mapM_Forall2 {A B} (f : A → result B) (l : list A) (k : list B) :
  mapM f l = Ok k → Forall2 (λ x y, f x = Ok y) l k.
Proof.
  revert k. induction l as [|x l IH]; intros k; cbn.
  { intros [= <-]. constructor. }
  destruct (f x) as [y|e] eqn:Hy; [|done]. cbn.
  destruct (mapM f l) as [k'|e]; [|done]. cbn.
  intros [= <-]. constructor; [done|by apply IH].
Qed.

(** The rows of the data frame are labelled by the index given. *)
Lemma DataFrame_index (data : list F) index df :
  DataFrame data index = Ok df → df.*1 = index.
Proof.
  destruct data as [|x data]; cbn -[zip].
  - intros [= <-]. rewrite <- list_fmap_compose. apply list_fmap_id.
  - case_bool_decide as Hlen; [|done]. intros [= <-].
    apply fst_zip. rewrite <- Hlen. done.
Qed.

Lemma length_rows_transpose a : length (rows (transpose a)) = ncols a.
Proof. unfold transpose. cbn. by rewrite length_map, length_seq. Qed.

Lemma rows_transpose_lookup a i :
  i < ncols a → rows (transpose a) !! i = Some (get_col i a).
Proof.
  intros Hi. unfold transpose. cbn. rewrite lookup_map.
  by rewrite lookup_seq_lt.
Qed.

Lemma matmul_ncols a b c : matmul a b = Ok c → ncols c = ncols b.
Proof. unfold matmul. case_bool_decide; [|done]. by intros [= <-]. Qed.

(** The rows of the table before the ranking. *)
Lemma train_genes_scores_rows_eq (map_X S_a G_a : matrix F) genes table :
  train_genes_scores map_X S_a G_a genes = Ok table →
  ∃ G_predicted df,
    matmul (transpose map_X) S_a = Ok G_predicted ∧
    table = sort_values df ∧ df.*1 = genes ∧
    let k := ncols G_a `min` ncols S_a in
    (k = 0 → df.*2 = replicate (length genes) f_nan) ∧
    (k ≠ 0 →
       length genes = k ∧
       ∀ i s, df.*2 !! i = Some s →
         cos_sim (get_col i G_a) (get_col i G_predicted) = Ok s).
Proof.
  intros Hrun.
  apply train_genes_scores_inv in Hrun as (Gp & cs & df & HGp & Hcs & Hdf & ->).
  exists Gp, df. split; [done|]. split; [done|].
  split; [by eapply DataFrame_index|].
  apply mapM_Forall2 in Hcs.
  pose proof (Forall2_length _ _ _ Hcs) as Hlen.
  rewrite length_zip, !length_rows_transpose, (matmul_ncols _ _ _ HGp) in Hlen.
  intros k. fold k in Hlen. split.
  - intros Hk. rewrite Hk in Hlen. destruct cs; [|done].
    cbn in Hdf. injection Hdf as <-.
    rewrite <- list_fmap_compose. clear. induction genes; cbn; by f_equal.
  - intros Hk.
    assert (cs ≠ []) as Hne by (intros ->; cbn in Hlen; lia).
    destruct (DataFrame_nonempty _ _ _ Hdf Hne) as [Hl ->].
    split; [lia|]. intros i s Hi.
    rewrite snd_zip in Hi by lia.
    destruct (Forall2_lookup_r _ _ _ _ _ Hcs Hi) as ([v1 v2] & Hz & Hs).
    apply lookup_zip_Some in Hz as [Hz1 Hz2]. cbn [fst snd] in *.
    assert (i < k) as Hik by (apply lookup_lt_Some in Hi; lia).
    rewrite rows_transpose_lookup in Hz1 by lia.
    rewrite rows_transpose_lookup in Hz2 by (rewrite (matmul_ncols _ _ _ HGp); lia).
    by injection Hz1 as <-; injection Hz2 as <-.
Qed.

Lemma train_genes_scores_rows (map_X S_a G_a : matrix F) genes table :
  train_genes_scores map_X S_a G_a genes = Ok table →
  ∃ G_predicted df,
    matmul (transpose map_X) S_a = Ok G_predicted ∧
    table ≡ₚ df ∧ df.*1 = genes ∧
    let k := ncols G_a `min` ncols S_a in
    (k = 0 → df.*2 = replicate (length genes) f_nan) ∧
    (k ≠ 0 →
       length genes = k ∧
       ∀ i s, df.*2 !! i = Some s →
         cos_sim (get_col i G_a) (get_col i G_predicted) = Ok s).
Proof.
  intros Hrun.
  destruct (train_genes_scores_rows_eq _ _ _ _ _ Hrun)
    as (Gp & df & HGp & -> & Hidx & Hk).
  exists Gp, df. split; [done|]. split; [apply sort_values_perm|]. by split.
Qed.

Lemma cos_sim_raises (v1 v2 : list F) e : cos_sim v1 v2 = Raise e → e = ValueError.
Proof.
  unfold cos_sim, vdot. case_bool_decide; [intros H'; inversion H'|].
  by intros [= <-].
Qed.

Lemma cos_sims_raises (l : list (list F * list F)) e :
  mapM (λ p, cos_sim p.1 p.2) l = Raise e → e = ValueError.
Proof.
  induction l as [|[v1 v2] l IH]; [intros H'; inversion H'|].
  change (mapM (λ p, cos_sim p.1 p.2) ((v1, v2) :: l))
    with (y ← cos_sim v1 v2; k ← mapM (λ p, cos_sim p.1 p.2) l; mret (y :: k)).
  destruct (cos_sim v1 v2) as [y|e'] eqn:Hy.
  2: { intros [= <-]. by apply cos_sim_raises in Hy. }
  cbn [mbind result_bind].
  destruct (mapM _ l) as [k|e'']; [intros H'; inversion H'|].
  intros [= <-]. by apply IH.
Qed.

(** Every failure of the scoring step is a [ValueError]: operands that do
    not fit, or scores that are not as many as the genes. *)
Lemma train_genes_scores_raises (map_X S_a G_a : matrix F) genes e :
  train_genes_scores map_X S_a G_a genes = Raise e → e = ValueError.
Proof.
  unfold train_genes_scores.
  destruct (matmul _ _) as [Gp|e'] eqn:HGp.
  2: { intros [= <-]. unfold matmul in HGp.
       case_bool_decide; [discriminate HGp|]. by injection HGp as <-. }
  cbn [mbind result_bind].
  destruct (mapM _ _) as [cs|e'] eqn:Hcs.
  2: { intros [= <-]. by apply cos_sims_raises in Hcs. }
  cbn [mbind result_bind].
  destruct (DataFrame cs genes) as [df|e'] eqn:Hdf; [intros H'; inversion H'|].
  intros [= <-]. unfold DataFrame in Hdf. destruct cs; [discriminate Hdf|].
  case_bool_decide; [discriminate Hdf|]. by injection Hdf as <-.
Qed.

(** What every completed run of [map_cells_to_space] went through. *)
Lemma map_cells_completed cells space mode adata_map device lr n st o_c o_s r st' :
  heap st !! X cells = Some o_c → heap st !! X space = Some o_s →
  map_cells cells space mode adata_map device lr n st = (Ok r, st') →
  ∃ a_c a_s mapping_matrix table,
    obj_matrix o_c = Some a_c ∧ obj_matrix o_s = Some a_s ∧
    mode = "simple" ∧
    shape mapping_matrix = (n_obs cells, n_obs space) ∧
    heap st' !! X r = Some (ndarray float32 mapping_matrix) ∧
    train_genes_scores mapping_matrix (astype_float32 a_c) (astype_float32 a_s)
      (var_index cells) = Ok table ∧
    obs_index r = obs_index cells ∧ var_index r = obs_index space ∧
    uns r = {[ "train_genes_scores" := table ]}.
Proof.
  intros Hc Hs Hrun.
  destruct (obj_matrix o_c) as [a_c|] eqn:Hac; last first.
  { destruct o_c; try done.
    by rewrite (map_cells_cells_unrecognized _ _ _ _ _ _ _ _ _ Hc) in Hrun. }
  destruct (obj_matrix o_s) as [a_s|] eqn:Has; last first.
  { destruct o_s; try done.
    by rewrite (map_cells_space_unrecognized _ _ _ _ _ _ _ _ _ _ _ Hc Hac Hs) in Hrun. }
  rewrite (map_cells_run _ _ _ _ _ _ _ _ _ _ _ _ Hc Hac Hs Has) in Hrun.
  cbv zeta in Hrun.
  destruct (torch_device device) as [dev|e]; [|done].
  case_bool_decide as Hmode; [|done].
  destruct (Mapper_init _ _ _ _ _ _ _) as [mapper|e]; [|done].
  destruct (Mapper_train mapper lr n) as [mm|e]; [|done].
  case_bool_decide as Hshape; [|done].
  destruct (train_genes_scores _ _ _ _) as [table|e] eqn:Hsc; [|done].
  injection Hrun as <- <-. cbn.
  exists a_c, a_s, mm, table.
  do 4 (split; [done|]). split; [apply lookup_insert_eq|].
  do 3 (split; [done|]). by rewrite insert_empty.
Qed.

(** What every completed run of [map_cells_to_space] went through, with
    the Mapper. *)
Lemma map_cells_trained cells space mode adata_map device lr n st o_c o_s r st' :
  heap st !! X cells = Some o_c → heap st !! X space = Some o_s →
  map_cells cells space mode adata_map device lr n st = (Ok r, st') →
  ∃ a_c a_s dev mapper mapping_matrix table,
    obj_matrix o_c = Some a_c ∧ obj_matrix o_s = Some a_s ∧
    mode = "simple" ∧ torch_device device = Ok dev ∧
    (let S_ := fresh (dom (heap st)) in
     let h1 := <[S_ := ndarray float32 (astype_float32 a_c)]> (heap st) in
     let G_ := fresh (dom h1) in
     Mapper_init (astype_float32 a_c) (astype_float32 a_s)
       (replicate (n_obs space) f_zero) dev adata_map
       {| lambda_d := 0; lambda_g1 := 1; lambda_g2 := 0; lambda_r := 0 |}
       (<[G_ := ndarray float32 (astype_float32 a_s)]> h1) = Ok mapper) ∧
    Mapper_train mapper lr n = Ok mapping_matrix ∧
    shape mapping_matrix = (n_obs cells, n_obs space) ∧
    heap st' !! X r = Some (ndarray float32 mapping_matrix) ∧
    train_genes_scores mapping_matrix (astype_float32 a_c) (astype_float32 a_s)
      (var_index cells) = Ok table ∧
    obs_index r = obs_index cells ∧ var_index r = obs_index space ∧
    uns r = {[ "train_genes_scores" := table ]} ∧
    log st' = log st ++ [(INFO, "Allocate tensors for mapping.");
                         (INFO, "Begin training...");
                         (INFO, "Saving results..")].
Proof.
  intros Hc Hs Hrun.
  destruct (obj_matrix o_c) as [a_c|] eqn:Hac; last first.
  { destruct o_c; try done.
    by rewrite (map_cells_cells_unrecognized _ _ _ _ _ _ _ _ _ Hc) in Hrun. }
  destruct (obj_matrix o_s) as [a_s|] eqn:Has; last first.
  { destruct o_s; try done.
    by rewrite (map_cells_space_unrecognized _ _ _ _ _ _ _ _ _ _ _ Hc Hac Hs) in Hrun. }
  rewrite (map_cells_run _ _ _ _ _ _ _ _ _ _ _ _ Hc Hac Hs Has) in Hrun.
  cbv zeta in Hrun.
  destruct (torch_device device) as [dev|e] eqn:Hdev; [|done].
  case_bool_decide as Hmode; [|done].
  destruct (Mapper_init _ _ _ _ _ _ _) as [mapper|e] eqn:Hinit; [|done].
  destruct (Mapper_train mapper lr n) as [mm|e] eqn:Htrain; [|done].
  case_bool_decide as Hshape; [|done].
  destruct (train_genes_scores _ _ _ _) as [table|e] eqn:Hsc; [|done].
  injection Hrun as <- <-. cbn.
  exists a_c, a_s, dev, mapper, mm, table.
  do 4 (split; [done|]). split; [exact Hinit|]. do 2 (split; [done|]).
  split; [apply lookup_insert_eq|].
  do 3 (split; [done|]). split; [by rewrite insert_empty|].
  by rewrite <- !app_assoc.
Qed.

(** *** The score of a gene *)

Lemma sum_below_ext n (f g : nat → F) :
  (∀ i, i < n → f i = g i) → sum_below n f = sum_below n g.
Proof.
  induction n as [|n IH]; intros Hfg; [done|]. cbn.
  rewrite IH by (intros i Hi; apply Hfg; lia). by rewrite Hfg by lia.
Qed.

Lemma fold_left_sum_below (l : list (F * F)) :
  fold_left (λ acc p, f_add acc (f_mul p.1 p.2)) l f_zero =
  sum_below (length l)
    (λ i, f_mul (nth i l (f_zero, f_zero)).1 (nth i l (f_zero, f_zero)).2).
Proof.
  induction l as [|x l IH] using rev_ind; [done|].
  rewrite fold_left_app, length_app, Nat.add_1_r. cbn.
  rewrite IH, nth_middle. f_equal. apply sum_below_ext. intros i Hi.
  by rewrite app_nth1.
Qed.

Lemma nth_zip {A B} (v1 : list A) (v2 : list B) i d1 d2 :
  length v1 = length v2 →
  nth i (zip v1 v2) (d1, d2) = (nth i v1 d1, nth i v2 d2).
Proof.
  revert v2 i. induction v1 as [|x v1 IH]; intros [|y v2] i Hlen; try done.
  - by destruct i.
  - destruct i; [done|]. cbn. apply IH. by injection Hlen.
Qed.

(** [dot] is the inner product of the design document. *)
Lemma dot_inner_product (v1 v2 : list F) n :
  length v1 = n → length v2 = n →
  dot v1 v2 = inner_product n (λ i, nth i v1 f_zero) (λ i, nth i v2 f_zero).
Proof.
  intros H1 H2. unfold dot, inner_product. rewrite fold_left_sum_below.
  rewrite length_zip, H1, H2, Nat.min_id. apply sum_below_ext. intros i _.
  rewrite nth_zip by congruence. done.
Qed.

Lemma nth_get_col (a : matrix F) i j : nth i (get_col j a) f_zero = entry a i j.
Proof.
  unfold get_col, entry. generalize (rows a). intros rs. revert i.
  induction rs as [|r rs IH]; intros [|i]; cbn; try done; by destruct j.
Qed.

Lemma length_get_col (a : matrix F) j : length (get_col j a) = nrows a.
Proof. unfold get_col, nrows. by rewrite length_map. Qed.

(** The product [M.T @ S], element by element. *)
Lemma matmul_transpose_entry (M S_a Gp : matrix F) spot gene :
  matmul (transpose M) S_a = Ok Gp →
  spot < ncols M → gene < ncols S_a →
  entry Gp spot gene = predicted_expression M S_a spot gene.
Proof.
  unfold matmul. case_bool_decide as Hshape; [|done]. intros [= <-] Hs Hg.
  change (ncols (transpose M)) with (nrows M) in Hshape.
  unfold entry, predicted_expression. cbn [rows transpose].
  rewrite map_map.
  rewrite (nth_lookup _ spot), list_lookup_fmap, lookup_seq_lt by done. cbn.
  rewrite (nth_lookup _ gene), list_lookup_fmap, lookup_seq_lt by done. cbn.
  rewrite (dot_inner_product _ _ (nrows M)) by (by rewrite length_get_col).
  unfold inner_product. apply sum_below_ext. intros i _.
  by rewrite !nth_get_col.
Qed.

Lemma matmul_transpose_nrows (M S_a Gp : matrix F) :
  matmul (transpose M) S_a = Ok Gp → nrows M = nrows S_a ∧ nrows Gp = ncols M.
Proof.
  unfold matmul. case_bool_decide as Hshape; [|done]. intros [= <-].
  split; [done|]. unfold nrows. cbn. by rewrite !length_map, length_seq.
Qed.

(** One round of the loop of lines 123-125 computes the score of the design
    document. *)
Lemma cos_sim_gene_score (M S_a G_a Gp : matrix F) gene s :
  matmul (transpose M) S_a = Ok Gp → gene < ncols S_a →
  cos_sim (get_col gene G_a) (get_col gene Gp) = Ok s →
  nrows G_a = ncols M ∧ s = gene_score M S_a G_a gene.
Proof.
  intros HGp Hg. unfold cos_sim, vdot. case_bool_decide as Hlen; [|done].
  intros [= <-]. rewrite !length_get_col in Hlen.
  destruct (matmul_transpose_nrows _ _ _ HGp) as [_ Hn]. rewrite Hn in Hlen.
  split; [done|].
  unfold gene_score, cosine_similarity, euclidean_norm, norm.
  rewrite !(dot_inner_product _ _ (nrows G_a))
    by (rewrite length_get_col; congruence).
  assert (∀ i, i < nrows G_a →
            nth i (get_col gene Gp) f_zero = predicted_expression M S_a i gene) as Hp.
  { intros i Hi. rewrite nth_get_col.
    apply matmul_transpose_entry; [done|lia|done]. }
  unfold inner_product. f_equal; [|f_equal; f_equal].
  - apply sum_below_ext. intros i Hi. by rewrite nth_get_col, Hp.
  - apply sum_below_ext. intros i Hi. by rewrite !nth_get_col.
  - apply sum_below_ext. intros i Hi. by rewrite !Hp.
Qed.

(** The data frame of the scores before the ranking. *)
Lemma train_genes_scores_frame (map_X S_a G_a : matrix F) genes table :
  train_genes_scores map_X S_a G_a genes = Ok table →
  ∃ df,
    table = sort_values df ∧
    let k := ncols G_a `min` ncols S_a in
    (k ≠ 0 →
       length genes = k ∧ nrows map_X = nrows S_a ∧ nrows G_a = ncols map_X ∧
       df = zip genes (gene_score map_X S_a G_a <$> seq 0 k)) ∧
    (k = 0 → df = (λ g, (g, f_nan)) <$> genes).
Proof.
  intros Hrun.
  apply train_genes_scores_inv in Hrun as (Gp & cs & df & HGp & Hcs & Hdf & ->).
  exists df. split; [done|].
  apply mapM_Forall2 in Hcs.
  pose proof (Forall2_length _ _ _ Hcs) as Hlen.
  rewrite length_zip, !length_rows_transpose, (matmul_ncols _ _ _ HGp) in Hlen.
  intros k. fold k in Hlen. split.
  - intros Hk.
    assert (cs ≠ []) as Hne by (intros ->; cbn in Hlen; lia).
    destruct (DataFrame_nonempty _ _ _ Hdf Hne) as [Hl ->].
    destruct (matmul_transpose_nrows _ _ _ HGp) as [Hrows _].
    assert (∀ i s, cs !! i = Some s →
              nrows G_a = ncols map_X ∧ s = gene_score map_X S_a G_a i) as Hsc.
    { intros i s Hi.
      destruct (Forall2_lookup_r _ _ _ _ _ Hcs Hi) as ([v1 v2] & Hz & Hs).
      apply lookup_zip_Some in Hz as [Hz1 Hz2]. cbn [fst snd] in *.
      assert (i < k) as Hik by (apply lookup_lt_Some in Hi; lia).
      rewrite rows_transpose_lookup in Hz1 by lia.
      rewrite rows_transpose_lookup in Hz2 by (rewrite (matmul_ncols _ _ _ HGp); lia).
      injection Hz1 as <-; injection Hz2 as <-.
      apply (cos_sim_gene_score _ _ _ _ _ _ HGp); [lia|done]. }
    split; [lia|]. split; [done|]. split.
    { destruct cs as [|s cs]; [done|]. by destruct (Hsc 0 s eq_refl). }
    f_equal. apply list_eq. intros i. rewrite list_lookup_fmap.
    destruct (cs !! i) as [s|] eqn:Hi.
    + destruct (Hsc i s Hi) as [_ ->].
      rewrite lookup_seq_lt by (apply lookup_lt_Some in Hi; lia). done.
    + apply lookup_ge_None in Hi. rewrite lookup_seq_ge by lia. done.
  - intros Hk. rewrite Hk in Hlen. destruct cs; [|done].
    cbn in Hdf. by injection Hdf as <-.
Qed.

(** Claim C7.  When [map_cells_to_space] completes, the result holds under
    [train_genes_scores] a table in descending order of score (a missing
    score counts as the lowest) that is a rearrangement of the pairs of a
    training gene and its score: the cosine similarity, over the spots,
    between the observed spatial expression of the gene and the expression
    that the mapping matrix returned by the training predicts for it.  When
    no column is paired, every gene is listed with a missing score. *)
Theorem train_genes_scores_ranked `{!FloatOrder F}
    cells space mode adata_map device lr n st o_c o_s r st' :
  heap st !! X cells = Some o_c → heap st !! X space = Some o_s →
  map_cells cells space mode adata_map device lr n st = (Ok r, st') →
  ∃ a_c a_s mapper mapping_matrix df table,
    obj_matrix o_c = Some a_c ∧ obj_matrix o_s = Some a_s ∧
    Mapper_train mapper lr n = Ok mapping_matrix ∧
    heap st' !! X r = Some (ndarray float32 mapping_matrix) ∧
    let S_a := astype_float32 a_c in
    let G_a := astype_float32 a_s in
    let k := ncols G_a `min` ncols S_a in
    (k ≠ 0 →
       length (var_index cells) = k ∧
       nrows mapping_matrix = nrows S_a ∧ nrows G_a = ncols mapping_matrix ∧
       df = zip (var_index cells) (gene_score mapping_matrix S_a G_a <$> seq 0 k)) ∧
    (k = 0 → df = (λ g, (g, f_nan)) <$> var_index cells) ∧
    uns r !! "train_genes_scores" = Some table ∧
    table ≡ₚ df ∧
    Sorted score_desc table.
Proof.
  intros Hc Hs Hrun.
  destruct (map_cells_trained _ _ _ _ _ _ _ _ _ _ _ _ Hc Hs Hrun)
    as (a_c & a_s & dev & mapper & mm & table & Hac & Has & _ & _ & _ & Htrain & _ &
        HX & Hsc & _ & _ & Huns & _).
  destruct (train_genes_scores_frame _ _ _ _ _ Hsc) as (df & -> & Hk & Hk0).
  exists a_c, a_s, mapper, mm, df, (sort_values df).
  do 4 (split; [done|]). cbv zeta. split; [exact Hk|]. split; [exact Hk0|].
  split; [by rewrite Huns, lookup_singleton_eq|].
  split; [apply sort_values_perm|apply sort_values_sorted].
Qed.

(** Property X2.  The result of a completed run (lines 90-118): the mode is
    ["simple"], the device string was accepted, a Mapper was constructed on
    the float32 arrays of the two datasets with the hyperparameters of that
    mode, the result is indexed by the cells and by the spots, its [X] is
    the matrix that the training of that Mapper returned, of that shape,
    and the three progress messages were logged. *)
Theorem map_cells_to_space_result
    cells space mode adata_map device lr n st o_c o_s r st' :
  heap st !! X cells = Some o_c → heap st !! X space = Some o_s →
  map_cells cells space mode adata_map device lr n st = (Ok r, st') →
  mode = "simple" ∧
  obs_index r = obs_index cells ∧ var_index r = obs_index space ∧
  (∃ a_c a_s dev mapper mapping_matrix,
     obj_matrix o_c = Some a_c ∧ obj_matrix o_s = Some a_s ∧
     torch_device device = Ok dev ∧
     (let S_ := fresh (dom (heap st)) in
      let h1 := <[S_ := ndarray float32 (astype_float32 a_c)]> (heap st) in
      let G_ := fresh (dom h1) in
      Mapper_init (astype_float32 a_c) (astype_float32 a_s)
        (replicate (n_obs space) f_zero) dev adata_map
        {| lambda_d := 0; lambda_g1 := 1; lambda_g2 := 0; lambda_r := 0 |}
        (<[G_ := ndarray float32 (astype_float32 a_s)]> h1) = Ok mapper) ∧
     Mapper_train mapper lr n = Ok mapping_matrix ∧
     heap st' !! X r = Some (ndarray float32 mapping_matrix) ∧
     shape mapping_matrix = (n_obs cells, n_obs space)) ∧
  log st' = log st ++ [(INFO, "Allocate tensors for mapping.");
                       (INFO, "Begin training...");
                       (INFO, "Saving results..")].
Proof.
  intros Hc Hs Hrun.
  destruct (map_cells_trained _ _ _ _ _ _ _ _ _ _ _ _ Hc Hs Hrun)
    as (a_c & a_s & dev & mapper & mm & table & Hac & Has & Hmode & Hdev & Hinit &
        Htrain & Hshape & HX & _ & Hobs & Hvar & _ & Hlog).
  do 3 (split; [done|]). split; [|done].
  by exists a_c, a_s, dev, mapper, mm.
Qed.

(** Property X9.  In the result of a completed run, [uns] holds the table
    [train_genes_scores] and nothing else, and the table has one row for
    each gene of the cells' dataset, labelled by that gene, and no other row
    (lines 116-129). *)
Theorem map_cells_to_space_scores_every_gene
    cells space mode adata_map device lr n st o_c o_s r st' :
  heap st !! X cells = Some o_c → heap st !! X space = Some o_s →
  map_cells cells space mode adata_map device lr n st = (Ok r, st') →
  ∃ table,
    uns r = {[ "train_genes_scores" := table ]} ∧
    table.*1 ≡ₚ var_index cells ∧
    length table = n_vars cells.
Proof.
  intros Hc Hs Hrun.
  destruct (map_cells_completed _ _ _ _ _ _ _ _ _ _ _ _ Hc Hs Hrun)
    as (a_c & a_s & mm & table & _ & _ & _ & _ & _ & Hsc & _ & _ & Huns).
  exists table. split; [done|].
  destruct (train_genes_scores_rows _ _ _ _ _ Hsc) as (Gp & df & _ & Hperm & Hidx & _).
  assert (table.*1 ≡ₚ var_index cells) as Hgenes by (by rewrite Hperm, Hidx).
  split; [done|]. unfold n_vars. by rewrite <- Hgenes, length_fmap.
Qed.

(** Property X10.  The scoring step pairs the genes by position (lines
    121-127): the table is a rearrangement of rows of which the i-th is
    labelled by the i-th gene name given and scored by the cosine similarity
    of column i of [G] and column i of the prediction [adata_map.X.T @ S].
    [zip] stops at the shorter of the two matrices, so further columns of
    [G] are ignored; the number of gene names must be the number of columns
    paired, unless no column is paired, in which case every gene is listed
    with a missing score. *)
Theorem train_genes_scores_by_position (map_X S_a G_a : matrix F) genes table :
  train_genes_scores map_X S_a G_a genes = Ok table →
  ∃ G_predicted df,
    matmul (transpose map_X) S_a = Ok G_predicted ∧
    table ≡ₚ df ∧ df.*1 = genes ∧
    let k := ncols G_a `min` ncols S_a in
    (k = 0 → df.*2 = replicate (length genes) f_nan) ∧
    (k ≠ 0 →
       length genes = k ∧
       ∀ i s, df.*2 !! i = Some s →
         cos_sim (get_col i G_a) (get_col i G_predicted) = Ok s).
Proof. apply train_genes_scores_rows. Qed.

(** Property X11.  The failures of [map_cells_to_space] on two datasets that
    hold an [X], stage by stage, as the log tells them apart:
    [NotImplementedError] for an [X] of unrecognized type, after the error
    message; the error of [torch.device], [NotImplementedError] for a mode
    other than ["simple"], or the error of the construction of the Mapper,
    in that order of precedence, before "Begin training..."; the error of
    the training before "Saving results.."; after it, only [ValueError]: a
    mapping matrix or operands of the scoring that do not fit in shape. *)
Theorem map_cells_to_space_failure_stages
    cells space mode adata_map device lr n st o_c o_s e st' :
  heap st !! X cells = Some o_c → heap st !! X space = Some o_s →
  map_cells cells space mode adata_map device lr n st = (Raise e, st') →
  (∃ ty, (o_c = other ty ∨ o_s = other ty) ∧ e = NotImplementedError ∧
     log st' = log st ++ [(INFO, "Allocate tensors for mapping.");
                          (ERROR, "AnnData X has unrecognized type: " +:+ ty)]) ∨
  (log st' = log st ++ [(INFO, "Allocate tensors for mapping.")] ∧
   (torch_device device = Raise e ∨
    ∃ dev, torch_device device = Ok dev ∧
      (mode ≠ "simple" ∧ e = NotImplementedError ∨
       mode = "simple" ∧ ∃ S_a G_a h,
         Mapper_init S_a G_a (replicate (n_obs space) f_zero) dev adata_map
           {| lambda_d := 0; lambda_g1 := 1; lambda_g2 := 0; lambda_r := 0 |} h
         = Raise e))) ∨
  (log st' = log st ++ [(INFO, "Allocate tensors for mapping.");
                        (INFO, "Begin training...")] ∧
   ∃ mapper, Mapper_train mapper lr n = Raise e) ∨
  (log st' = log st ++ [(INFO, "Allocate tensors for mapping.");
                        (INFO, "Begin training...");
                        (INFO, "Saving results..")] ∧
   e = ValueError).
Proof.
  intros Hc Hs Hrun.
  destruct (obj_matrix o_c) as [a_c|] eqn:Hac; last first.
  { destruct o_c as [| | |ty]; try done.
    rewrite (map_cells_cells_unrecognized _ _ _ _ _ _ _ _ _ Hc) in Hrun.
    injection Hrun as <- <-. left. exists ty. cbn. rewrite <- app_assoc. auto. }
  destruct (obj_matrix o_s) as [a_s|] eqn:Has; last first.
  { destruct o_s as [| | |ty]; try done.
    rewrite (map_cells_space_unrecognized _ _ _ _ _ _ _ _ _ _ _ Hc Hac Hs) in Hrun.
    injection Hrun as <- <-. left. exists ty. cbn. rewrite <- app_assoc. auto. }
  right.
  rewrite (map_cells_run _ _ _ _ _ _ _ _ _ _ _ _ Hc Hac Hs Has) in Hrun.
  cbv zeta in Hrun.
  destruct (torch_device device) as [dev|e'] eqn:Hdev.
  2: { injection Hrun as <- <-. left. auto. }
  case_bool_decide as Hmode.
  2: { injection Hrun as <- <-. left. split; [done|]. right. exists dev. auto. }
  destruct (Mapper_init _ _ _ _ _ _ _) as [mapper|e'] eqn:Hinit.
  2: { injection Hrun as <- <-. left. split; [done|]. right. exists dev.
       split; [done|]. right. split; [done|]. by eexists _, _, _. }
  right.
  destruct (Mapper_train mapper lr n) as [mm|e'] eqn:Htrain.
  2: { injection Hrun as <- <-. left. cbn. rewrite <- app_assoc. split; [done|]. by eexists. }
  right.
  case_bool_decide as Hshape.
  2: { injection Hrun as <- <-. cbn. by rewrite <- !app_assoc. }
  destruct (train_genes_scores _ _ _ _) as [table|e'] eqn:Hsc; [done|].
  injection Hrun as <- <-. apply train_genes_scores_raises in Hsc as ->.
  cbn. by rewrite <- !app_assoc.
Qed.

(** Property X12.  [pp_adatas] followed by [map_cells_to_space] on the two
    datasets it returned: when both complete, the genes scored in
    [train_genes_scores] are the candidate genes that both input datasets
    have, each of them once, and the result is indexed by the cells and the
    spots of the input datasets. *)
Theorem pipeline_scores_shared_genes
    adata_1 adata_2 genes st r1 r2 st1 mode adata_map device lr n r st2 :
  pp_adatas adata_1 adata_2 genes st = (Ok (r1, r2), st1) →
  map_cells r1 r2 mode adata_map device lr n st1 = (Ok r, st2) →
  ∃ table,
    uns r !! "train_genes_scores" = Some table ∧
    table.*1 ≡ₚ filter (λ g, g ∈ default (var_index adata_1) genes ∧
                             g ∈ var_index adata_2) (var_index adata_1) ∧
    NoDup table.*1 ∧
    obs_index r = obs_index adata_1 ∧ var_index r = obs_index adata_2.
Proof.
  intros Hpp Hmap.
  destruct (pp_adatas_ok_post _ _ _ _ _ _ _ Hpp)
    as (_ & _ & Hobs1 & Hobs2 & Hnd & _ & [o_c HX1] & [o_s HX2]).
  destruct (pp_adatas_ok_genes _ _ _ _ _ _ _ Hpp) as [Hv1 _].
  destruct (map_cells_completed _ _ _ _ _ _ _ _ _ _ _ _ HX1 HX2 Hmap)
    as (a_c & a_s & mm & table & _ & _ & _ & _ & _ & Hsc & Hobs & Hvar & Huns).
  destruct (train_genes_scores_rows _ _ _ _ _ Hsc) as (Gp & df & _ & Hperm & Hidx & _).
  assert (table.*1 ≡ₚ var_index r1) as Hperm' by (by rewrite Hperm, Hidx).
  exists table.
  split; [by rewrite Huns, lookup_singleton_eq|].
  split; [by rewrite Hperm', Hv1|].
  split; [by rewrite Hperm'|].
  by rewrite Hobs, Hvar.
Qed.

End MappingProofs.

(** ** Arithmetic of binary32 *)

Lemma b32_zero_zn x : b32_zero x → zero_or_nan x.
Proof. by destruct x. Qed.

Lemma SFmul_zn_l x y : zero_or_nan x → zero_or_nan (SFmul 24 128 x y).
Proof. by destruct x, y. Qed.

Lemma SFmul_zn_r x y : zero_or_nan y → zero_or_nan (SFmul 24 128 x y).
Proof. by destruct x, y. Qed.

Lemma SFadd_zn x y : zero_or_nan x → zero_or_nan y → zero_or_nan (SFadd 24 128 x y).
Proof. destruct x as [[]| | |], y as [[]| | |]; done. Qed.

Lemma SFsqrt_zn x : zero_or_nan x → zero_or_nan (SFsqrt 24 128 x).
Proof. by destruct x. Qed.

Lemma SFdiv_zn x y : zero_or_nan x → zero_or_nan y → SFdiv 24 128 x y = S754_nan.
Proof. by destruct x, y. Qed.

Lemma b32_dot_zn_from acc (v1 v2 : list spec_float) :
  zero_or_nan acc → Forall b32_zero v1 ∨ Forall b32_zero v2 →
  zero_or_nan (fold_left (λ acc p, f_add acc (f_mul p.1 p.2)) (zip v1 v2) acc).
Proof.
  revert acc v2. induction v1 as [|x v1 IH]; intros acc [|y v2] Hacc Hz; try done.
  cbn. apply IH.
  - apply SFadd_zn; [done|].
    destruct Hz as [Hz|Hz]; apply Forall_cons in Hz as [Hz _].
    + by apply SFmul_zn_l, b32_zero_zn.
    + by apply SFmul_zn_r, b32_zero_zn.
  - destruct Hz as [Hz|Hz]; apply Forall_cons in Hz as [_ Hz]; auto.
Qed.

Lemma b32_dot_zn (v1 v2 : list spec_float) :
  Forall b32_zero v1 ∨ Forall b32_zero v2 → zero_or_nan (dot v1 v2).
Proof. by apply b32_dot_zn_from. Qed.

Lemma b32_cos_sim_degenerate (v1 v2 : list spec_float) :
  length v1 = length v2 →
  Forall b32_zero v1 ∨ Forall b32_zero v2 →
  cos_sim v1 v2 = Ok S754_nan.
Proof.
  intros Hlen Hz. unfold cos_sim, vdot. rewrite bool_decide_true by done. cbn.
  f_equal. apply SFdiv_zn; [by apply b32_dot_zn|].
  unfold norm. destruct Hz as [Hz|Hz].
  - apply SFmul_zn_l, SFsqrt_zn, b32_dot_zn. auto.
  - apply SFmul_zn_r, SFsqrt_zn, b32_dot_zn. auto.
Qed.

Lemma SFcompare_antisym x y :
  b32_isnan x = false → b32_isnan y = false →
  ∃ c, SFcompare x y = Some c ∧ SFcompare y x = Some (CompOpp c).
Proof.
  destruct x as [sx|sx| |sx mx ex], y as [sy|sy| |sy my ey]; intros Hx Hy;
    try discriminate; cbn;
    try (destruct sx; eauto; fail); try (destruct sy; eauto; fail);
    try (destruct sx, sy; eauto; fail).
  destruct sx, sy; eauto.
  - rewrite (Z.compare_antisym ex ey).
    destruct (ex ?= ey)%Z; cbn; eauto.
    rewrite (Pos.compare_cont_antisym mx my Eq). cbn. eauto.
  - rewrite (Z.compare_antisym ex ey).
    destruct (ex ?= ey)%Z; cbn; eauto.
    eexists. split; [done|]. by rewrite (Pos.compare_cont_antisym mx my Eq).
Qed.

#[global] Instance binary32_order : FloatOrder spec_float.
Proof.
  intros x y Hx Hy. cbn in *.
  destruct (SFcompare_antisym x y Hx Hy) as (c & Hxy & Hyx).
  unfold SFleb. rewrite Hxy, Hyx. destruct c; auto.
Qed.

(** ** Conversion to float32 *)

(** The conversion leaves a float32 number as it is. *)
Lemma b32_cast_float32 x : is_float32 x = true → b32_cast x = x.
Proof.
  destruct x as [s|s| |s m e]; try done.
  unfold is_float32. cbn [valid_binary b32_cast].
  unfold bounded, canonical_mantissa. intros H.
  apply andb_prop in H as [Hc He]. apply Z.eqb_eq in Hc.
  unfold binary_round, shl_align. rewrite Hc, Z.sub_diag.
  unfold binary_round_aux, shr_fexp.
  cbn [shr_record_of_loc Zdigits2]. rewrite Hc, Z.sub_diag.
  cbn [shr shr_m loc_of_shr_record round_nearest_even shr_record_of_loc Zdigits2].
  rewrite Hc, Z.sub_diag. cbn [shr shr_m]. by rewrite He.
Qed.

Lemma astype_float32_float32 (a : matrix spec_float) :
  float32_array a → astype_float32 a = a.
Proof.
  destruct a as [c rs]. unfold float32_array, astype_float32. cbn. intros Hrs.
  f_equal. induction Hrs as [|r rs Hr _ IH]; [done|]. cbn. f_equal; [|done].
  clear IH. induction Hr as [|x r Hx _ IH]; [done|]. cbn.
  f_equal; [by apply b32_cast_float32|done].
Qed.

Lemma entry_astype_float32 (a : matrix spec_float) i j :
  entry (astype_float32 a) i j = b32_cast (entry a i j).
Proof.
  unfold entry, astype_float32. cbn [rows].
  change (@nil spec_float) with (map b32_cast []) at 1.
  rewrite (map_nth (map b32_cast)).
  exact (map_nth b32_cast _ (S754_zero false) j).
Qed.

(** Claim C8, amended.  Ingestion of a dense matrix returns a new float32
    array of the same shape whose elements are the elements of the input
    converted to float32.  It is equal to the input, element by element,
    when the elements of the input are float32 numbers. *)
Theorem ingest_dense_float32 dt (a : matrix spec_float) st :
  ∃ l, heap st !! l = None ∧
    ingest (ndarray dt a) st =
    (Ok l, {| heap := <[l := ndarray float32 (astype_float32 a)]> (heap st);
              log := log st |}) ∧
    shape (astype_float32 a) = shape a ∧
    (∀ i j, entry (astype_float32 a) i j = b32_cast (entry a i j)) ∧
    (float32_array a → astype_float32 a = a).
Proof.
  exists (fresh (dom (heap st))). split; [apply fresh_heap_None|].
  split; [by apply ingest_recognized|].
  split; [apply shape_astype_float32|].
  split; [apply entry_astype_float32|apply astype_float32_float32].
Qed.

(** ** A gene without expression in the spatial data *)

Lemma get_col_astype_b32 i (a : matrix spec_float) :
  get_col i (astype_float32 a) = b32_cast <$> get_col i a.
Proof.
  unfold get_col, astype_float32. cbn [rows].
  rewrite map_map. rewrite <- list_fmap_compose. apply map_ext. intros r. cbn.
  exact (map_nth b32_cast r (S754_zero false) i).
Qed.

Lemma b32_cast_zero (v : list spec_float) :
  Forall b32_zero v → Forall b32_zero (b32_cast <$> v).
Proof. intros Hv. apply Forall_fmap. eapply Forall_impl; [done|]. by intros []. Qed.

Lemma cos_sim_ok_length {F} `{Float F} (v1 v2 : list F) s :
  cos_sim v1 v2 = Ok s → length v1 = length v2.
Proof. unfold cos_sim, vdot. by case_bool_decide. Qed.

Section Binary32.
Context {Mapper : Type}.
Variable Mapper_init :
  matrix spec_float → matrix spec_float → list spec_float → string →
  option (AnnData spec_float) → hyperparameters →
  gmap loc (pyobj spec_float) → result Mapper.
Variable Mapper_train : Mapper → spec_float → Z → result (matrix spec_float).
Variable torch_device : string → result string.

(** The row of a gene whose column of the spatial expression matrix is
    all-zero, in the data frame that is ranked. *)
Lemma zero_column_row_nan
    cells space mode adata_map device lr n st o_c o_s a_s r st' i g :
  heap st !! X cells = Some o_c → heap st !! X space = Some o_s →
  obj_matrix o_s = Some a_s →
  map_cells_to_space Mapper_init Mapper_train torch_device
    cells space mode adata_map device lr n st = (Ok r, st') →
  var_index cells !! i = Some g →
  Forall b32_zero (get_col i a_s) →
  ∃ df, uns r !! "train_genes_scores" = Some (sort_values df) ∧ (g, S754_nan) ∈ df.
Proof.
  intros Hc Hs Has Hrun Hg Hzero.
  destruct (map_cells_completed _ _ _ _ _ _ _ _ _ _ _ _ _ _ _ Hc Hs Hrun)
    as (a_c & a_s' & mm & table & _ & Has' & _ & _ & _ & Hsc & _ & _ & Huns).
  assert (a_s' = a_s) as -> by congruence.
  destruct (train_genes_scores_rows_eq _ _ _ _ _ Hsc)
    as (Gp & df & _ & -> & Hidx & Hk0 & Hk).
  exists df. split; [by rewrite Huns, lookup_singleton_eq|].
  assert (∃ s, df.*2 !! i = Some s) as [s Hs2].
  { apply lookup_lt_is_Some. rewrite length_fmap, <- (length_fmap fst), Hidx.
    by eapply lookup_lt_Some. }
  assert (df !! i = Some (g, s)) as Hdf.
  { rewrite <- (zip_fst_snd df). apply lookup_zip_Some. by rewrite Hidx. }
  assert (s = S754_nan) as ->; [|by eapply list_elem_of_lookup_2].
  destruct (decide (ncols (astype_float32 a_s) `min` ncols (astype_float32 a_c) = 0))
    as [Hz|Hnz].
  - rewrite (Hk0 Hz) in Hs2. by apply lookup_replicate in Hs2 as [-> _].
  - destruct (Hk Hnz) as [_ Hcos]. specialize (Hcos i s Hs2).
    pose proof (cos_sim_ok_length _ _ _ Hcos) as Hlen.
    rewrite (b32_cos_sim_degenerate _ _ Hlen) in Hcos; [congruence|].
    left. rewrite get_col_astype_b32. by apply b32_cast_zero.
Qed.

(** Claim C2, amended.  In float32 arithmetic, for every pair of vectors of
    the same length the loop of lines 123-125 computes a score and raises
    nothing; the score of a pair of which either vector is all-zero is NaN,
    the value of the division 0/0 that nothing guards, and not a number put
    in its place.  A gene whose column of the spatial expression matrix is
    all-zero is listed in [train_genes_scores] of a completed run with the
    score NaN, after every gene whose score is a number.  The score of two
    vectors of nonzero norm is not confined to the interval from -1 to 1:
    with the rounding of every operation, a vector compared with itself can
    score more than 1. *)
Theorem cos_sim_zero_vector_scores_nan :
  (∀ v1 v2 : list spec_float, length v1 = length v2 →
     (∃ s, cos_sim v1 v2 = Ok s) ∧
     (Forall b32_zero v1 ∨ Forall b32_zero v2 → cos_sim v1 v2 = Ok S754_nan)) ∧
  (∀ cells space mode adata_map device lr n st o_c o_s a_s r st' i g,
     heap st !! X cells = Some o_c → heap st !! X space = Some o_s →
     obj_matrix o_s = Some a_s →
     map_cells_to_space Mapper_init Mapper_train torch_device
       cells space mode adata_map device lr n st = (Ok r, st') →
     var_index cells !! i = Some g →
     Forall b32_zero (get_col i a_s) →
     ∃ front back,
       uns r !! "train_genes_scores" = Some (front ++ back) ∧
       Forall (λ q, b32_isnan q.2 = false) front ∧
       Forall (λ q, b32_isnan q.2 = true) back ∧
       (g, S754_nan) ∈ back) ∧
  (∃ (v : list spec_float) s,
     ¬ zero_or_nan (norm v) ∧ cos_sim v v = Ok s ∧
     b32_isnan s = false ∧ SFleb s b32_one = false).
Proof.
  split; [|split].
  - intros v1 v2 Hlen. split; [|by apply b32_cos_sim_degenerate].
    unfold cos_sim, vdot. rewrite bool_decide_true by done. by eexists.
  - intros cells space mode adata_map device lr n st o_c o_s a_s r st' i g
      Hc Hs Has Hrun Hg Hzero.
    destruct (zero_column_row_nan _ _ _ _ _ _ _ _ _ _ _ _ _ _ _ Hc Hs Has Hrun Hg Hzero)
      as (df & Huns & Hin).
    destruct (sort_values_nans_last df (g, S754_nan) Hin)
      as (front & back & Heq & Hfront & Hback & Hg'); [done|].
    exists front, back. by rewrite Huns, Heq.
  - exists [b32_one; b32_one], (S754_finite false 8388609 (-23)).
    split; [by vm_compute|]. split; [by vm_compute|]. by vm_compute.
Qed.

(** Property X13.  In binary32 arithmetic, when a run of
    [map_cells_to_space] completes and the i-th column of the spatial
    expression matrix is all-zero, the i-th gene of the cells' dataset is
    listed in [train_genes_scores] with the score NaN: the division of line
    125 is 0/0 for that gene, whatever the mapping predicts. *)
Theorem unexpressed_gene_scores_nan
    cells space mode adata_map device lr n st o_c o_s a_s r st' i g :
  heap st !! X cells = Some o_c → heap st !! X space = Some o_s →
  obj_matrix o_s = Some a_s →
  map_cells_to_space Mapper_init Mapper_train torch_device
    cells space mode adata_map device lr n st = (Ok r, st') →
  var_index cells !! i = Some g →
  Forall b32_zero (get_col i a_s) →
  ∃ table, uns r !! "train_genes_scores" = Some table ∧ (g, S754_nan) ∈ table.
Proof.
  intros Hc Hs Has Hrun Hg Hzero.
  destruct (zero_column_row_nan _ _ _ _ _ _ _ _ _ _ _ _ _ _ _ Hc Hs Has Hrun Hg Hzero)
    as (df & Huns & Hin).
  exists (sort_values df). split; [done|]. by rewrite sort_values_perm.
Qed.

End Binary32.

(** ** The examples *)


(** Against claim C2 as stated.  The score of an all-zero vector with
    another is NaN, not a number put in its place, and a run on spots that
    do not express a gene ranks that gene with the score NaN.  The score of
    the vector [[1, 1]], of norm 1.4142135, with itself is 1 + 2^-23, which
    is more than 1. *)
Lemma cos_sim_nan_and_above_one :
  (cos_sim [b32_0; b32_0] [b32_one; b32_half] = Ok S754_nan ∧
   ∃ r st' s, ex_map_cells "simple" ex_silent_state = (Ok r, st') ∧
     uns r !! "train_genes_scores" = Some [("Gad1", s); ("Pvalb", S754_nan)]) ∧
  (norm [b32_one; b32_one] = S754_finite false 11863283 (-23) ∧
   cos_sim [b32_one; b32_one] [b32_one; b32_one] =
     Ok (S754_finite false 8388609 (-23)) ∧
   SFleb (S754_finite false 8388609 (-23)) b32_one = false ∧
   SFleb b32_one (S754_finite false 8388609 (-23)) = true).
Proof.
  split; [split; [by vm_compute|]|by vm_compute].
  eexists _, _, _. split; [vm_compute; reflexivity|]. vm_compute. reflexivity.
Qed.

(** Against claim C5 as stated.  The gene axes of the two datasets of the
    examples, subset to the shared genes, differ in order, and the call
    raises nothing: it returns the datasets.  With a gene repeated in the
    second axis, axes of the same length that differ in order raise
    [InvalidIndexError], not [AssertionError]. *)
Lemma pp_adatas_order_mismatch :
  (subset_genes ex_cells ex_space None ex_cells = ["Gad1"; "Pvalb"] ∧
   subset_genes ex_cells ex_space None ex_space = ["Pvalb"; "Gad1"] ∧
   ∃ r1 r2 st',
     pp_adatas ex_cells ex_space None ex_sparse_state = (Ok (r1, r2), st')) ∧
  (subset_genes ex_rep_cells ex_rep_space None ex_rep_cells = ["Gad1"; "Sst"; "Sst"] ∧
   subset_genes ex_rep_cells ex_rep_space None ex_rep_space = ["Sst"; "Gad1"; "Gad1"] ∧
   ∃ st',
     pp_adatas ex_rep_cells ex_rep_space None ex_rep_state =
     (Raise InvalidIndexError, st')).
Proof.
  split.
  - split; [by vm_compute|]. split; [by vm_compute|].
    eexists _, _, _. vm_compute. reflexivity.
  - split; [by vm_compute|]. split; [by vm_compute|].
    eexists. vm_compute. reflexivity.
Qed.

(** Against claim C3 as stated: with the unsupported mode ["clusters"], the
    call raises the error only after it has allocated the dense float32
    arrays of both expression matrices, at locations that were free. *)
Lemma unsupported_mode_allocates :
  ∃ st', ex_map_cells "clusters" ex_aligned_state = (Raise NotImplementedError, st') ∧
    heap ex_aligned_state !! 2 = None ∧ heap ex_aligned_state !! 3 = None ∧
    heap st' !! 2 = Some (ndarray float32 ex_S) ∧
    heap st' !! 3 = Some (ndarray float32 ex_G).
Proof.
  eexists. split; [vm_compute; reflexivity|]. by vm_compute.
Qed.

(** Against claim C8 as stated: the dense float64 matrix that holds 0.1 is
    ingested as a float32 array whose element is another number,
    13421773 * 2^-27.  The float64 number 1.0, which a float32 holds as
    well, keeps its value. *)
Lemma ingest_float64_rounds :
  is_float64 b64_tenth = true ∧
  (∃ l st' x,
     ingest (ndarray float64 (Matrix 1 [[b64_tenth]])) (State ∅ []) = (Ok l, st') ∧
     heap st' !! l = Some (ndarray float32 (Matrix 1 [[x]])) ∧
     x = S754_finite false 13421773 (-27) ∧
     same_value x b64_tenth = false) ∧
  is_float64 b64_one = true ∧
  same_value (b32_cast b64_one) b64_one = true.
Proof.
  split; [by vm_compute|]. split; [|by vm_compute].
  eexists _, _, _. split; [vm_compute; reflexivity|].
  split; [vm_compute; reflexivity|]. by vm_compute.
Qed.

(** Claim C8, amended, at a float32 array. *)
Lemma ingest_dense_float32_witness :
  float32_array ex_S ∧ astype_float32 ex_S = ex_S.
Proof.
  assert (float32_array ex_S) as H by (repeat constructor).
  split; [exact H|].
  destruct (ingest_dense_float32 float32 ex_S (State ∅ [])) as (_ & _ & _ & _ & _ & Hid).
  exact (Hid H).
Defined.

(** Claim C2, amended, at spots that do not express Pvalb. *)
Lemma cos_sim_zero_vector_scores_nan_witness :
  ∃ r st' front back,
    ex_map_cells "simple" ex_silent_state = (Ok r, st') ∧
    uns r !! "train_genes_scores" = Some (front ++ back) ∧
    Forall (λ q, b32_isnan q.2 = false) front ∧
    ("Pvalb", S754_nan) ∈ back.
Proof.
  assert (∃ r st', ex_map_cells "simple" ex_silent_state = (Ok r, st'))
    as (r & st' & Hrun) by (eexists _, _; vm_compute; reflexivity).
  destruct (proj1 (proj2 (cos_sim_zero_vector_scores_nan
              const_Mapper_init (const_Mapper_train ex_mapping) example_torch_device))
              ex_aligned_cells ex_aligned_space "simple" None "cpu" b32_half 1000%Z
              ex_silent_state (ndarray float32 ex_S) _ _ r st' 1 "Pvalb"
              eq_refl eq_refl eq_refl Hrun eq_refl)
    as (front & back & Huns & Hfront & _ & Hin).
  { repeat constructor. }
  by exists r, st', front, back.
Defined.

(** Claim C5, amended, at a gene that occurs twice in the first dataset and
    once in the second: the subsets have two and one genes. *)
Lemma pp_adatas_alignment_check_witness :
  (pp_adatas ex_dup_cells ex_dup_space None ex_dup_state).1 = Raise AssertionError.
Proof.
  apply (proj1 (pp_adatas_alignment_check ex_dup_cells ex_dup_space None ex_dup_state)).
  vm_compute. discriminate.
Defined.

(** Claim C6 at two sparse datasets: the shared genes in the order of the
    first. *)
Lemma pp_adatas_shared_genes_witness :
  ∃ r1 r2 st',
    pp_adatas ex_cells ex_space None ex_sparse_state = (Ok (r1, r2), st') ∧
    var_index r1 = ["Gad1"; "Pvalb"] ∧ var_index r2 = ["Gad1"; "Pvalb"].
Proof.
  assert (∃ r1 r2 st',
    pp_adatas ex_cells ex_space None ex_sparse_state = (Ok (r1, r2), st'))
    as (r1 & r2 & st' & Hrun) by (eexists _, _, _; vm_compute; reflexivity).
  exists r1, r2, st'. split; [done|].
  destruct (pp_adatas_shared_genes _ _ _ _ _ _ _ Hrun) as (_ & H21 & H1 & _).
  rewrite H21, H1. split; vm_compute; reflexivity.
Defined.

(** Claim C3, amended, at the mode ["clusters"]. *)
Lemma unsupported_mode_after_ingestion_witness :
  ex_map_cells "clusters" ex_aligned_state =
  (Raise NotImplementedError,
   {| heap := <[3 := ndarray float32 ex_G]>
                (<[2 := ndarray float32 ex_S]> (heap ex_aligned_state));
      log := [(INFO, "Allocate tensors for mapping.")] |}).
Proof.
  destruct (unsupported_mode_after_ingestion
              const_Mapper_init (const_Mapper_train ex_mapping) example_torch_device
              ex_aligned_cells ex_aligned_space "clusters" None "cpu" b32_half 1000
              ex_aligned_state (ndarray float32 ex_S) (csr_matrix float32 ex_G)
              ex_S ex_G "cpu" ltac:(done) eq_refl eq_refl eq_refl eq_refl eq_refl)
    as (_ & _ & Hrun).
  unfold ex_map_cells. rewrite Hrun. vm_compute. reflexivity.
Defined.

(** Claim C7 at a completed run: Pvalb, the better reproduced gene, comes
    first. *)
Lemma train_genes_scores_ranked_witness :
  ∃ r st' table,
    ex_map_cells "simple" ex_aligned_state = (Ok r, st') ∧
    uns r !! "train_genes_scores" = Some table ∧
    table ≡ₚ [("Gad1", gene_score ex_mapping ex_S ex_G 0);
              ("Pvalb", gene_score ex_mapping ex_S ex_G 1)] ∧
    table.*1 = ["Pvalb"; "Gad1"] ∧
    Sorted score_desc table.
Proof.
  assert (∃ r st', ex_map_cells "simple" ex_aligned_state = (Ok r, st'))
    as (r & st' & Hrun) by (eexists _, _; vm_compute; reflexivity).
  destruct (train_genes_scores_ranked
              const_Mapper_init (const_Mapper_train ex_mapping) example_torch_device
              ex_aligned_cells ex_aligned_space "simple" None "cpu" b32_half 1000
              ex_aligned_state (ndarray float32 ex_S) (csr_matrix float32 ex_G)
              r st' eq_refl eq_refl Hrun)
    as (a_c & a_s & mapper & mm & df & table & [= <-] & [= <-] & [= <-] & _ & Hk & _ &
        Ht & Hperm & Hsorted).
  destruct Hk as (_ & _ & _ & ->); [by vm_compute|].
  exists r, st', table. split; [done|]. split; [done|].
  split; [rewrite Hperm; by vm_compute|]. split; [|done].
  revert Ht. vm_compute in Hrun. injection Hrun as <- _. vm_compute.
  by intros [= <-].
Defined.

(** Claim C9 at a completed run. *)
Lemma ingestion_leaves_inputs_witness :
  ∃ r st',
    ex_map_cells "simple" ex_aligned_state = (r, st') ∧
    heap st' !! 0 = Some (ndarray float32 ex_S) ∧
    heap st' !! 1 = Some (csr_matrix float32 ex_G) ∧
    heap ex_aligned_state !! 2 = None ∧ heap ex_aligned_state !! 3 = None ∧
    heap st' !! 2 = Some (ndarray float32 ex_S) ∧
    heap st' !! 3 = Some (ndarray float32 ex_G).
Proof.
  destruct (ex_map_cells "simple" ex_aligned_state) as [r st'] eqn:Hrun.
  exists r, st'. split; [done|].
  destruct (proj2 (ingestion_leaves_inputs
              const_Mapper_init (const_Mapper_train ex_mapping) example_torch_device)
              ex_aligned_cells ex_aligned_space "simple" None "cpu" b32_half 1000%Z
              ex_aligned_state (ndarray float32 ex_S) (csr_matrix float32 ex_G)
              ex_S ex_G r st' eq_refl eq_refl eq_refl eq_refl Hrun)
    as (_ & H0 & H1 & H2 & H3 & _ & H4 & H5).
  repeat split; assumption.
Defined.


(** Property X2 at a completed run. *)
Lemma map_cells_to_space_result_witness :
  ∃ r st',
    ex_map_cells "simple" ex_aligned_state = (Ok r, st') ∧
    obs_index r = ["cell0"; "cell1"; "cell2"] ∧
    var_index r = ["spot0"; "spot1"] ∧
    log st' = [(INFO, "Allocate tensors for mapping.");
               (INFO, "Begin training...");
               (INFO, "Saving results..")].
Proof.
  assert (∃ r st', ex_map_cells "simple" ex_aligned_state = (Ok r, st'))
    as (r & st' & Hrun) by (eexists _, _; vm_compute; reflexivity).
  destruct (map_cells_to_space_result
              const_Mapper_init (const_Mapper_train ex_mapping) example_torch_device
              ex_aligned_cells ex_aligned_space "simple" None "cpu" b32_half 1000%Z
              ex_aligned_state (ndarray float32 ex_S) (csr_matrix float32 ex_G)
              r st' eq_refl eq_refl Hrun)
    as (_ & Hobs & Hvar & _ & Hlog).
  by exists r, st'.
Defined.

(** Property X3 at two sparse datasets: in the result, Pvalb has for the
    spots the column it had as first gene of the input. *)
Lemma pp_adatas_keeps_gene_columns_witness :
  ∃ r1 r2 st' o1 o2 m1 m2,
    pp_adatas ex_cells ex_space None ex_sparse_state = (Ok (r1, r2), st') ∧
    heap st' !! X r2 = Some o2 ∧ obj_matrix o2 = Some m2 ∧
    gene_col (var_index r2) m2 "Pvalb" = Some [b32_0; b32_one] ∧
    heap st' !! X r1 = Some o1 ∧ obj_matrix o1 = Some m1 ∧
    gene_col (var_index r1) m1 "Pvalb" = Some [b32_0; b32_one; b32_half].
Proof.
  destruct (pp_adatas_keeps_gene_columns ex_cells ex_space None ex_sparse_state
              ex_cells_X ex_space_X
              (csr_matrix float32 ex_cells_X) (csc_matrix float32 ex_space_X)
              eq_refl eq_refl eq_refl eq_refl eq_refl eq_refl
              ltac:(compute_done) ltac:(compute_done))
    as (r1 & r2 & st' & o1 & o2 & m1 & m2 & Hrun & H1 & Hm1 & H2 & Hm2 & _ & _ & Hcols).
  exists r1, r2, st', o1, o2, m1, m2.
  assert ("Pvalb" ∈ var_index r1) as Hin.
  { destruct (pp_adatas_ok_genes _ _ _ _ _ _ _ Hrun) as (_ & Hg).
    apply Hg. compute_done. }
  destruct (Hcols "Pvalb" Hin) as [Hc1 Hc2].
  rewrite Hc1, Hc2. repeat split; try done; by vm_compute.
Defined.

(** Property X4 at a list in another order, with a repetition and an
    unknown gene. *)
Lemma pp_adatas_genes_as_set_witness :
  pp_adatas ex_cells ex_space (Some ["Pvalb"; "Xist"; "Gad1"; "Pvalb"]) =
  pp_adatas ex_cells ex_space (Some ["Gad1"; "Pvalb"]).
Proof.
  apply pp_adatas_genes_as_set. intros g _ Hg.
  apply elem_of_cons in Hg as [->|Hg]; [split; intros _; compute_done|].
  apply elem_of_cons in Hg as [->|Hg]; [split; intros _; compute_done|].
  by apply elem_of_nil in Hg.
Defined.

(** Property X5 at two sparse datasets. *)
Lemma pp_adatas_returns_unique_genes_witness :
  ∃ r1 r2 st',
    pp_adatas ex_cells ex_space None ex_sparse_state = (Ok (r1, r2), st') ∧
    NoDup (var_index r1) ∧ NoDup (var_index r2).
Proof.
  assert (∃ r1 r2 st',
    pp_adatas ex_cells ex_space None ex_sparse_state = (Ok (r1, r2), st'))
    as (r1 & r2 & st' & Hrun) by (eexists _, _, _; vm_compute; reflexivity).
  exists r1, r2, st'. split; [done|].
  destruct (pp_adatas_returns_unique_genes _ _ _ _ _ _ _ Hrun) as (H1 & H2 & _).
  by split.
Defined.


(** Property X7 at two sparse datasets that share two genes. *)
Lemma pp_adatas_logs_gene_count_witness :
  ∃ r st',
    pp_adatas ex_cells ex_space None ex_sparse_state = (r, st') ∧
    log st' = [(INFO, "2 marker genes shared by AnnDatas.")].
Proof.
  destruct (pp_adatas ex_cells ex_space None ex_sparse_state) as [r st'] eqn:Hrun.
  exists r, st'. split; [done|].
  by destruct (pp_adatas_logs_gene_count _ _ _ _ _ _ Hrun) as [-> _].
Defined.

(** Property X8 at a candidate list that holds one unknown gene. *)
Lemma pp_adatas_no_shared_genes_witness :
  ∃ r1 r2 st',
    pp_adatas ex_cells ex_space (Some ["Xist"]) ex_sparse_state = (Ok (r1, r2), st') ∧
    var_index r1 = [] ∧ var_index r2 = [] ∧
    log st' = [(INFO, "0 marker genes shared by AnnDatas.")].
Proof.
  destruct (pp_adatas_no_shared_genes ex_cells ex_space (Some ["Xist"]) ex_sparse_state
              (csr_matrix float32 ex_cells_X) (csc_matrix float32 ex_space_X)
              ex_cells_X ex_space_X eq_refl eq_refl eq_refl eq_refl eq_refl eq_refl)
    as (r1 & r2 & st' & o1 & o2 & m1 & m2 & Hrun & H1 & H2 & _ & _ & _ & _ & _ & _ &
        _ & _ & Hlog).
  { intros g Hg _. apply list_elem_of_singleton in Hg as ->. compute_done. }
  by exists r1, r2, st'.
Defined.

(** Property X9 at a completed run. *)
Lemma map_cells_to_space_scores_every_gene_witness :
  ∃ r st' table,
    ex_map_cells "simple" ex_aligned_state = (Ok r, st') ∧
    uns r = {[ "train_genes_scores" := table ]} ∧
    table.*1 ≡ₚ ["Gad1"; "Pvalb"].
Proof.
  assert (∃ r st', ex_map_cells "simple" ex_aligned_state = (Ok r, st'))
    as (r & st' & Hrun) by (eexists _, _; vm_compute; reflexivity).
  destruct (map_cells_to_space_scores_every_gene
              const_Mapper_init (const_Mapper_train ex_mapping) example_torch_device
              ex_aligned_cells ex_aligned_space "simple" None "cpu" b32_half 1000%Z
              ex_aligned_state (ndarray float32 ex_S) (csr_matrix float32 ex_G)
              r st' eq_refl eq_refl Hrun) as (table & Huns & Hperm & _).
  by exists r, st', table.
Defined.

(** Property X10 at the matrices of the examples. *)
Lemma train_genes_scores_by_position_witness :
  ∃ table G_predicted s0 s1,
    train_genes_scores ex_mapping ex_S ex_G ["Gad1"; "Pvalb"] = Ok table ∧
    matmul (transpose ex_mapping) ex_S = Ok G_predicted ∧
    table ≡ₚ [("Gad1", s0); ("Pvalb", s1)] ∧
    cos_sim (get_col 0 ex_G) (get_col 0 G_predicted) = Ok s0 ∧
    cos_sim (get_col 1 ex_G) (get_col 1 G_predicted) = Ok s1.
Proof.
  assert (∃ table, train_genes_scores ex_mapping ex_S ex_G ["Gad1"; "Pvalb"] = Ok table)
    as (table & Hrun) by (eexists; vm_compute; reflexivity).
  destruct (train_genes_scores_by_position _ _ _ _ _ Hrun)
    as (Gp & df & HGp & Hperm & Hidx & _ & Hk).
  destruct Hk as [_ Hcos]; [by vm_compute|].
  destruct df as [|[g0 s0] [|[g1 s1] [|? ?]]]; try discriminate Hidx.
  injection Hidx as -> ->.
  exists table, Gp, s0, s1. split; [done|]. split; [done|]. split; [done|].
  split; [exact (Hcos 0 s0 eq_refl)|exact (Hcos 1 s1 eq_refl)].
Defined.

(** Property X11 at a training that returns a matrix of another shape
    than cells by spots. *)
Lemma map_cells_to_space_failure_stages_witness :
  ∃ st',
    map_cells_to_space const_Mapper_init (const_Mapper_train ex_small_mapping)
      example_torch_device ex_aligned_cells ex_aligned_space "simple" None "cpu"
      b32_half 1000 ex_aligned_state = (Raise ValueError, st') ∧
    log st' = [(INFO, "Allocate tensors for mapping.");
               (INFO, "Begin training...");
               (INFO, "Saving results..")].
Proof.
  assert (∃ st',
    map_cells_to_space const_Mapper_init (const_Mapper_train ex_small_mapping)
      example_torch_device ex_aligned_cells ex_aligned_space "simple" None "cpu"
      b32_half 1000 ex_aligned_state = (Raise ValueError, st'))
    as (st' & Hrun) by (eexists; vm_compute; reflexivity).
  exists st'. split; [done|].
  destruct (map_cells_to_space_failure_stages
              const_Mapper_init (const_Mapper_train ex_small_mapping)
              example_torch_device ex_aligned_cells ex_aligned_space "simple" None
              "cpu" b32_half 1000%Z ex_aligned_state
              (ndarray float32 ex_S) (csr_matrix float32 ex_G) ValueError st'
              eq_refl eq_refl Hrun)
    as [(ty & [Hty|Hty] & _)
       |[[_ [Hdev|(dev & _ & [[Hm _]|[_ (S_a & G_a & h & Hinit)]])]]
        |[[_ [[] Htr]]|[Hlog _]]]];
    try discriminate; done.
Defined.

(** Property X12 at two sparse datasets: the pipeline scores Gad1 and
    Pvalb. *)
Lemma pipeline_scores_shared_genes_witness :
  ∃ r1 r2 st1 r st2 table,
    pp_adatas ex_cells ex_space None ex_sparse_state = (Ok (r1, r2), st1) ∧
    map_cells_to_space const_Mapper_init (const_Mapper_train ex_mapping)
      example_torch_device r1 r2 "simple" None "cpu" b32_half 1000 st1 = (Ok r, st2) ∧
    uns r !! "train_genes_scores" = Some table ∧
    table.*1 ≡ₚ ["Gad1"; "Pvalb"] ∧
    obs_index r = ["cell0"; "cell1"; "cell2"] ∧ var_index r = ["spot0"; "spot1"].
Proof.
  eassert (pp_adatas ex_cells ex_space None ex_sparse_state = (Ok (_, _), _)) as Hpp
    by (vm_compute; reflexivity).
  match type of Hpp with
  | _ = (Ok (?r1, ?r2), ?st1) =>
      eassert (map_cells_to_space const_Mapper_init (const_Mapper_train ex_mapping)
                 example_torch_device r1 r2 "simple" None "cpu" b32_half 1000 st1
               = (Ok _, _)) as Hmap by (vm_compute; reflexivity)
  end.
  destruct (pipeline_scores_shared_genes _ _ _ _ _ _ _ _ _ _ _ _ _ _ _ _ _ Hpp Hmap)
    as (table & Huns & Hperm & _ & Hobs & Hvar).
  eexists _, _, _, _, _, table. split; [exact Hpp|]. split; [exact Hmap|].
  split; [exact Huns|]. split; [exact Hperm|]. split; [exact Hobs|exact Hvar].
Defined.

(** Property X13 at spots that do not express Pvalb. *)
Lemma unexpressed_gene_scores_nan_witness :
  ∃ r st' table,
    ex_map_cells "simple" ex_silent_state = (Ok r, st') ∧
    uns r !! "train_genes_scores" = Some table ∧
    ("Pvalb", S754_nan) ∈ table.
Proof.
  assert (∃ r st', ex_map_cells "simple" ex_silent_state = (Ok r, st'))
    as (r & st' & Hrun) by (eexists _, _; vm_compute; reflexivity).
  destruct (unexpressed_gene_scores_nan
              const_Mapper_init (const_Mapper_train ex_mapping) example_torch_device
              ex_aligned_cells ex_aligned_space "simple" None "cpu" b32_half 1000%Z
              ex_silent_state (ndarray float32 ex_S) _ _ r st' 1 "Pvalb"
              eq_refl eq_refl eq_refl Hrun eq_refl)
    as (table & Huns & Hin).
  { repeat constructor. }
  by exists r, st', table.
Defined.


(** Property X18 at two sparse datasets: the two matrices are read after
    the call as before it. *)
Lemma pp_adatas_leaves_inputs_witness :
  ∃ r1 r2 st',
    pp_adatas ex_cells ex_space None ex_sparse_state = (Ok (r1, r2), st') ∧
    heap st' !! 0 = Some (csr_matrix float32 ex_cells_X) ∧
    heap st' !! 1 = Some (csc_matrix float32 ex_space_X).
Proof.
  assert (∃ r1 r2 st',
    pp_adatas ex_cells ex_space None ex_sparse_state = (Ok (r1, r2), st'))
    as (r1 & r2 & st' & Hrun) by (eexists _, _, _; vm_compute; reflexivity).
  exists r1, r2, st'. split; [done|].
  destruct (pp_adatas_leaves_inputs ex_cells ex_space None ex_sparse_state
              (csr_matrix float32 ex_cells_X) (csc_matrix float32 ex_space_X)
              r1 r2 st' eq_refl eq_refl eq_refl eq_refl Hrun)
    as (_ & H1 & H2 & _).
  by split.
Defined.
